(** * Face tracking app: the annotation loop, the expression tally and the
      recording pipeline of [App], as state-passing functions.

    Two variants of the component are modelled, [page_js] (src/app/page.js)
    and [part_000] (the variant with the expression statistics).  React state
    set by [useState] setters is a record field, a [useRef] cell is a field
    as well, and the browser objects the handlers talk to (MediaRecorder
    instances, pending timeouts, object URLs, the save-as actions of anchor
    clicks) are kept in an explicit store.  Every handler is a function from
    world to world; asynchronous callbacks are separate functions that the
    event loop ([step]) invokes. *)

From Stdlib Require Import QArith Ascii.
From stdpp Require Import gmap strings list fin_maps pretty.

Local Open Scope string_scope.
Local Open Scope Z_scope.

(** ** JavaScript values the handlers compute with *)

(** A count held in the tally object: an integer-valued double, or NaN when
    [++] hit a missing property ([undefined + 1]).  The tally starts at 0
    and only [++] changes a count, so a count the component holds is an
    integer between 0 and 2^53. *)
Inductive jsnum : Type :=
  | JNum (z : Z)
  | JNaN.

(** The largest count [++] can reach: below it [z + 1] is a double, and
    [2^53 + 1] rounds back to [2^53]. *)
Definition MAX_COUNT : Z := 2 ^ 53.

Global Instance jsnum_eq_dec : EqDecision jsnum.
Proof. solve_decision. Defined.

(** [z + 1] in double arithmetic (round to nearest, ties to even), for an
    integer-valued double [z].  The sum is exact from -2^53 to 2^53 - 1.
    From 2^53 to 2^54 the doubles are the even integers and [z + 1] lies
    half way between two of them: the one whose half is even is returned, so
    [2^53 + 1] is [2^53].  Further out [z + 1] rounds back to [z]. *)
Definition double_add1 (z : Z) : Z :=
  if (- MAX_COUNT <=? z) && (z <? MAX_COUNT) then z + 1
  else if (- (2 * MAX_COUNT) <=? z) && (z <? 2 * MAX_COUNT) && Z.odd (z / 2) then z + 2
  else z.

(** The value [x++] stores, from the property value read ([None] is a
    missing property, which [++] reads as [undefined] and turns into NaN). *)
Definition js_postinc (v : option jsnum) : jsnum :=
  match v with
  | Some (JNum z) => JNum (double_add1 z)
  | _ => JNaN
  end.

(** [x > y] on two property reads; probabilities are finite numbers, read
    as rationals.  A comparison with [undefined] is false. *)
Definition js_gt (x y : option Q) : bool :=
  match x, y with
  | Some a, Some b => negb (Qle_bool a b)
  | _, _ => false
  end.

(** [arr.reduce(f)] without an initial value: a TypeError ([None]) on the
    empty array, else a left fold seeded with the first element. *)
Definition reduce {A : Type} (f : A → A → A) (arr : list A) : option A :=
  match arr with
  | [] => None
  | x :: rest => Some (fold_left f rest x)
  end.

(** ** Expression objects and the tally *)

Module Tally.

(** An expressions object: own string keys in insertion order. *)
Definition Expressions : Type := list (string * Q).

Definition Object_keys (e : Expressions) : list string := map fst e.

(** [expressions[k]] *)
Fixpoint get (e : Expressions) (k : string) : option Q :=
  match e with
  | [] => None
  | (k', p) :: rest => if String.eqb k k' then Some p else get rest k
  end.

(** The label order of the detection vocabulary, which is also the key order
    of the tally object literal. *)
Definition LABELS : list string :=
  ["neutral"; "happy"; "sad"; "angry"; "fearful"; "disgusted"; "surprised"].

(** The expressions object the detection provider builds for one face: the
    seven labels in vocabulary order. *)
Definition FaceExpressions (neutral happy sad angry fearful disgusted surprised : Q)
  : Expressions :=
  [("neutral", neutral); ("happy", happy); ("sad", sad); ("angry", angry);
   ("fearful", fearful); ("disgusted", disgusted); ("surprised", surprised)].

(** [Object.keys(expressions).reduce((a, b) => expressions[a] > expressions[b] ? a : b)] *)
Definition dominantExpression (expressions : Expressions) : option string :=
  reduce (fun a b => if js_gt (get expressions a) (get expressions b) then a else b)
         (Object_keys expressions).

(** The tally object [{neutral: 0, happy: 0, ...}]. *)
Definition zeroCounts : gmap string jsnum :=
  list_to_map (map (fun l => (l, JNum 0)) LABELS).

(** [newCounts[k]++] on the own properties of [newCounts].  The key
    [__proto__] is no own property: the assignment goes to the accessor
    inherited from [Object.prototype], which ignores a number, so the object
    is left as it was. *)
Definition increment (k : string) (counts : gmap string jsnum) : gmap string jsnum :=
  if String.eqb k "__proto__" then counts
  else <[k := js_postinc (counts !! k)]> counts.

Definition increments (ks : list string) (counts : gmap string jsnum)
  : gmap string jsnum :=
  fold_left (fun m k => increment k m) ks counts.

(** [resetExpressionCounts]: the setter receives a fresh literal. *)
Definition resetExpressionCounts (counts : gmap string jsnum) : gmap string jsnum :=
  zeroCounts.

(** A detection: [detection.expressions] may be absent. *)
Record Detection : Type := { expressions : option Expressions }.

(** [expressions instanceof FaceExpressions]: the object the provider's
    constructor builds, with the seven labels as its keys in vocabulary
    order. *)
Definition isFaceExpressions (e : Expressions) : bool :=
  bool_decide (Object_keys e = LABELS).

(** [faceapi.draw.drawFaceExpressions(canvas, resizedDetections)] throws
    unless every detection carries a FaceExpressions object. *)
Definition drawFaceExpressions_throws (resizedDetections : list Detection) : bool :=
  negb (forallb (fun detection =>
                   match expressions detection with
                   | Some e => isFaceExpressions e
                   | None => false
                   end) resizedDetections).

(** The state updater passed to [setExpressionCounts]: for each detection
    with expressions, bump the dominant label.  [None] is the TypeError of
    [reduce] on an expressions object without keys. *)
Fixpoint updateCounts (resizedDetections : list Detection)
    (newCounts : gmap string jsnum) : option (gmap string jsnum) :=
  match resizedDetections with
  | [] => Some newCounts
  | detection :: rest =>
      match expressions detection with
      | Some e =>
          match dominantExpression e with
          | Some k => updateCounts rest (increment k newCounts)
          | None => None
          end
      | None => updateCounts rest newCounts
      end
  end.

End Tally.

(** ** Browser objects *)

(** The two variants of the component under src/. *)
Inductive Variant : Type := page_js | part_000.

(** [MediaRecorder.state] *)
Inductive RecordingState : Type := Inactive | Recording | Paused.

Global Instance RecordingState_eq_dec : EqDecision RecordingState.
Proof. solve_decision. Defined.

(** The [event.data] blob of a [dataavailable] event, tagged with the
    recorder that fired it. *)
Record Chunk : Type := { chunk_of : nat; chunk_size : Z }.

(** The blob assembled by [new Blob(chunks, { type })]. *)
Record Blob : Type := { blob_parts : list Chunk; blob_type : string }.

(** The object literal [{ mimeType: supportedMimeType, timeslice: 2000 }]. *)
Record Options : Type := { opt_mimeType : string; opt_timeslice : Z }.

(** A MediaRecorder instance.  [rec_timeslice] is the argument its [start]
    was called with; [rec_stopping] holds between [stop()] and the task
    that fires the final [dataavailable] and [stop] events. *)
Record MediaRecorder : Type := {
  rec_mimeType : string;
  rec_state : RecordingState;
  rec_timeslice : option Z;
  rec_stopping : bool
}.

(** [new MediaRecorder(stream, options)]: the constructor's dictionary has a
    [mimeType] member (and bit rates); it has no [timeslice] member, so that
    property of the object passed is not read. *)
Definition new_MediaRecorder (options : Options) : MediaRecorder :=
  {| rec_mimeType := opt_mimeType options; rec_state := Inactive;
     rec_timeslice := None; rec_stopping := false |}.

(** [recorder.start(timeslice)]; on a recorder that is not inactive the call
    throws and changes nothing. *)
Definition MediaRecorder_start (timeslice : option Z) (r : MediaRecorder)
  : MediaRecorder :=
  match rec_state r with
  | Inactive => {| rec_mimeType := rec_mimeType r; rec_state := Recording;
                   rec_timeslice := timeslice; rec_stopping := rec_stopping r |}
  | _ => r
  end.

(** [recorder.stop()]: the recorder becomes inactive at once and a task is
    queued that fires [dataavailable] with the gathered data, then [stop]. *)
Definition MediaRecorder_stop (r : MediaRecorder) : MediaRecorder :=
  match rec_state r with
  | Inactive => r
  | _ => {| rec_mimeType := rec_mimeType r; rec_state := Inactive;
            rec_timeslice := rec_timeslice r; rec_stopping := true |}
  end.

(** What the environment answers when [startRecording] runs. *)
Record Env : Type := {
  isTypeSupported : string → bool;      (* MediaRecorder.isTypeSupported *)
  constructorThrows : option string     (* e.message of the constructor's exception *)
}.

(** The rejection of [getUserMedia]. *)
Record DOMException : Type := { name : string; message : string }.

(** A string in a condition: the empty string is falsy. *)
Definition truthy (s : string) : bool := negb (String.eqb s "").

(** [s.split(';')[0]] *)
Fixpoint split_semicolon_0 (s : string) : string :=
  match s with
  | EmptyString => EmptyString
  | String c rest =>
      if Ascii.eqb c ";"%char then EmptyString else String c (split_semicolon_0 rest)
  end.

(** ** The component *)

Record World : Type := {
  (* useState *)
  mediaRecorder : option nat;
  recording : bool;
  videoUrl : string;
  modelsLoaded : bool;
  error : string;
  isCameraReady : bool;
  cameraPermissionStatus : string;
  expressionCounts : gmap string jsnum;
  (* useRef: is .current set; the chunk array *)
  videoRef_current : bool;
  canvasRef_current : bool;
  recordedChunksRef : list Chunk;
  (* browser: recorder instances by creation index, pending start timeouts,
     live object URLs, save-as actions (file name, href) *)
  recorders : list MediaRecorder;
  timeouts : list nat;
  objectURLs : gmap string Blob;
  urlCounter : nat;
  saved : list (string * string);
  (* annotation loop: running intervals, detection calls awaiting their
     result, frames drawn on the canvas *)
  detectionIntervals : nat;
  inFlight : nat;
  framesDrawn : nat
}.

Definition setMediaRecorder (v : option nat) (w : World) : World :=
  {| mediaRecorder := v; recording := recording w; videoUrl := videoUrl w;
     modelsLoaded := modelsLoaded w; error := error w; isCameraReady := isCameraReady w;
     cameraPermissionStatus := cameraPermissionStatus w;
     expressionCounts := expressionCounts w; videoRef_current := videoRef_current w;
     canvasRef_current := canvasRef_current w; recordedChunksRef := recordedChunksRef w;
     recorders := recorders w; timeouts := timeouts w; objectURLs := objectURLs w;
     urlCounter := urlCounter w; saved := saved w;
     detectionIntervals := detectionIntervals w; inFlight := inFlight w;
     framesDrawn := framesDrawn w |}.

Definition setRecording (v : bool) (w : World) : World :=
  {| mediaRecorder := mediaRecorder w; recording := v; videoUrl := videoUrl w;
     modelsLoaded := modelsLoaded w; error := error w; isCameraReady := isCameraReady w;
     cameraPermissionStatus := cameraPermissionStatus w;
     expressionCounts := expressionCounts w; videoRef_current := videoRef_current w;
     canvasRef_current := canvasRef_current w; recordedChunksRef := recordedChunksRef w;
     recorders := recorders w; timeouts := timeouts w; objectURLs := objectURLs w;
     urlCounter := urlCounter w; saved := saved w;
     detectionIntervals := detectionIntervals w; inFlight := inFlight w;
     framesDrawn := framesDrawn w |}.

Definition setVideoUrl (v : string) (w : World) : World :=
  {| mediaRecorder := mediaRecorder w; recording := recording w; videoUrl := v;
     modelsLoaded := modelsLoaded w; error := error w; isCameraReady := isCameraReady w;
     cameraPermissionStatus := cameraPermissionStatus w;
     expressionCounts := expressionCounts w; videoRef_current := videoRef_current w;
     canvasRef_current := canvasRef_current w; recordedChunksRef := recordedChunksRef w;
     recorders := recorders w; timeouts := timeouts w; objectURLs := objectURLs w;
     urlCounter := urlCounter w; saved := saved w;
     detectionIntervals := detectionIntervals w; inFlight := inFlight w;
     framesDrawn := framesDrawn w |}.

Definition setModelsLoaded (v : bool) (w : World) : World :=
  {| mediaRecorder := mediaRecorder w; recording := recording w; videoUrl := videoUrl w;
     modelsLoaded := v; error := error w; isCameraReady := isCameraReady w;
     cameraPermissionStatus := cameraPermissionStatus w;
     expressionCounts := expressionCounts w; videoRef_current := videoRef_current w;
     canvasRef_current := canvasRef_current w; recordedChunksRef := recordedChunksRef w;
     recorders := recorders w; timeouts := timeouts w; objectURLs := objectURLs w;
     urlCounter := urlCounter w; saved := saved w;
     detectionIntervals := detectionIntervals w; inFlight := inFlight w;
     framesDrawn := framesDrawn w |}.

Definition setError (v : string) (w : World) : World :=
  {| mediaRecorder := mediaRecorder w; recording := recording w; videoUrl := videoUrl w;
     modelsLoaded := modelsLoaded w; error := v; isCameraReady := isCameraReady w;
     cameraPermissionStatus := cameraPermissionStatus w;
     expressionCounts := expressionCounts w; videoRef_current := videoRef_current w;
     canvasRef_current := canvasRef_current w; recordedChunksRef := recordedChunksRef w;
     recorders := recorders w; timeouts := timeouts w; objectURLs := objectURLs w;
     urlCounter := urlCounter w; saved := saved w;
     detectionIntervals := detectionIntervals w; inFlight := inFlight w;
     framesDrawn := framesDrawn w |}.

Definition setIsCameraReady (v : bool) (w : World) : World :=
  {| mediaRecorder := mediaRecorder w; recording := recording w; videoUrl := videoUrl w;
     modelsLoaded := modelsLoaded w; error := error w; isCameraReady := v;
     cameraPermissionStatus := cameraPermissionStatus w;
     expressionCounts := expressionCounts w; videoRef_current := videoRef_current w;
     canvasRef_current := canvasRef_current w; recordedChunksRef := recordedChunksRef w;
     recorders := recorders w; timeouts := timeouts w; objectURLs := objectURLs w;
     urlCounter := urlCounter w; saved := saved w;
     detectionIntervals := detectionIntervals w; inFlight := inFlight w;
     framesDrawn := framesDrawn w |}.

Definition setCameraPermissionStatus (v : string) (w : World) : World :=
  {| mediaRecorder := mediaRecorder w; recording := recording w; videoUrl := videoUrl w;
     modelsLoaded := modelsLoaded w; error := error w; isCameraReady := isCameraReady w;
     cameraPermissionStatus := v;
     expressionCounts := expressionCounts w; videoRef_current := videoRef_current w;
     canvasRef_current := canvasRef_current w; recordedChunksRef := recordedChunksRef w;
     recorders := recorders w; timeouts := timeouts w; objectURLs := objectURLs w;
     urlCounter := urlCounter w; saved := saved w;
     detectionIntervals := detectionIntervals w; inFlight := inFlight w;
     framesDrawn := framesDrawn w |}.

Definition setExpressionCounts (v : gmap string jsnum) (w : World) : World :=
  {| mediaRecorder := mediaRecorder w; recording := recording w; videoUrl := videoUrl w;
     modelsLoaded := modelsLoaded w; error := error w; isCameraReady := isCameraReady w;
     cameraPermissionStatus := cameraPermissionStatus w;
     expressionCounts := v; videoRef_current := videoRef_current w;
     canvasRef_current := canvasRef_current w; recordedChunksRef := recordedChunksRef w;
     recorders := recorders w; timeouts := timeouts w; objectURLs := objectURLs w;
     urlCounter := urlCounter w; saved := saved w;
     detectionIntervals := detectionIntervals w; inFlight := inFlight w;
     framesDrawn := framesDrawn w |}.

(** [recordedChunksRef.current = v] *)
Definition set_recordedChunksRef (v : list Chunk) (w : World) : World :=
  {| mediaRecorder := mediaRecorder w; recording := recording w; videoUrl := videoUrl w;
     modelsLoaded := modelsLoaded w; error := error w; isCameraReady := isCameraReady w;
     cameraPermissionStatus := cameraPermissionStatus w;
     expressionCounts := expressionCounts w; videoRef_current := videoRef_current w;
     canvasRef_current := canvasRef_current w; recordedChunksRef := v;
     recorders := recorders w; timeouts := timeouts w; objectURLs := objectURLs w;
     urlCounter := urlCounter w; saved := saved w;
     detectionIntervals := detectionIntervals w; inFlight := inFlight w;
     framesDrawn := framesDrawn w |}.

(** Updates of the browser's side of the world. *)
Definition set_recorders (v : list MediaRecorder) (w : World) : World :=
  {| mediaRecorder := mediaRecorder w; recording := recording w; videoUrl := videoUrl w;
     modelsLoaded := modelsLoaded w; error := error w; isCameraReady := isCameraReady w;
     cameraPermissionStatus := cameraPermissionStatus w;
     expressionCounts := expressionCounts w; videoRef_current := videoRef_current w;
     canvasRef_current := canvasRef_current w; recordedChunksRef := recordedChunksRef w;
     recorders := v; timeouts := timeouts w; objectURLs := objectURLs w;
     urlCounter := urlCounter w; saved := saved w;
     detectionIntervals := detectionIntervals w; inFlight := inFlight w;
     framesDrawn := framesDrawn w |}.

Definition set_timeouts (v : list nat) (w : World) : World :=
  {| mediaRecorder := mediaRecorder w; recording := recording w; videoUrl := videoUrl w;
     modelsLoaded := modelsLoaded w; error := error w; isCameraReady := isCameraReady w;
     cameraPermissionStatus := cameraPermissionStatus w;
     expressionCounts := expressionCounts w; videoRef_current := videoRef_current w;
     canvasRef_current := canvasRef_current w; recordedChunksRef := recordedChunksRef w;
     recorders := recorders w; timeouts := v; objectURLs := objectURLs w;
     urlCounter := urlCounter w; saved := saved w;
     detectionIntervals := detectionIntervals w; inFlight := inFlight w;
     framesDrawn := framesDrawn w |}.

Definition set_objectURLs (v : gmap string Blob) (n : nat) (w : World) : World :=
  {| mediaRecorder := mediaRecorder w; recording := recording w; videoUrl := videoUrl w;
     modelsLoaded := modelsLoaded w; error := error w; isCameraReady := isCameraReady w;
     cameraPermissionStatus := cameraPermissionStatus w;
     expressionCounts := expressionCounts w; videoRef_current := videoRef_current w;
     canvasRef_current := canvasRef_current w; recordedChunksRef := recordedChunksRef w;
     recorders := recorders w; timeouts := timeouts w; objectURLs := v;
     urlCounter := n; saved := saved w;
     detectionIntervals := detectionIntervals w; inFlight := inFlight w;
     framesDrawn := framesDrawn w |}.

Definition set_saved (v : list (string * string)) (w : World) : World :=
  {| mediaRecorder := mediaRecorder w; recording := recording w; videoUrl := videoUrl w;
     modelsLoaded := modelsLoaded w; error := error w; isCameraReady := isCameraReady w;
     cameraPermissionStatus := cameraPermissionStatus w;
     expressionCounts := expressionCounts w; videoRef_current := videoRef_current w;
     canvasRef_current := canvasRef_current w; recordedChunksRef := recordedChunksRef w;
     recorders := recorders w; timeouts := timeouts w; objectURLs := objectURLs w;
     urlCounter := urlCounter w; saved := v;
     detectionIntervals := detectionIntervals w; inFlight := inFlight w;
     framesDrawn := framesDrawn w |}.

Definition set_loop (intervals calls frames : nat) (w : World) : World :=
  {| mediaRecorder := mediaRecorder w; recording := recording w; videoUrl := videoUrl w;
     modelsLoaded := modelsLoaded w; error := error w; isCameraReady := isCameraReady w;
     cameraPermissionStatus := cameraPermissionStatus w;
     expressionCounts := expressionCounts w; videoRef_current := videoRef_current w;
     canvasRef_current := canvasRef_current w; recordedChunksRef := recordedChunksRef w;
     recorders := recorders w; timeouts := timeouts w; objectURLs := objectURLs w;
     urlCounter := urlCounter w; saved := saved w;
     detectionIntervals := intervals; inFlight := calls; framesDrawn := frames |}.

(** The component after its first render and mount: the [useState] and
    [useRef] initial values, both element refs attached. *)
Definition initialWorld : World :=
  {| mediaRecorder := None; recording := false; videoUrl := "";
     modelsLoaded := false; error := ""; isCameraReady := false;
     cameraPermissionStatus := "unknown";
     expressionCounts := Tally.zeroCounts; videoRef_current := true;
     canvasRef_current := true; recordedChunksRef := [];
     recorders := []; timeouts := []; objectURLs := ∅; urlCounter := 0%nat;
     saved := []; detectionIntervals := 0%nat; inFlight := 0%nat;
     framesDrawn := 0%nat |}.

(** ** Capture source: [startWebcam] *)

(** The synchronous prefix of [startWebcam], up to the [await]. *)
Definition startWebcam (w : World) : World := setError "" w.

(** [getUserMedia] resolved with a stream. *)
Definition startWebcam_resolved (w : World) : World :=
  if videoRef_current w
  then setCameraPermissionStatus "granted" (setIsCameraReady true w)
  else w.

(** The message chosen in the [catch] block. *)
Definition webcamErrorMessage (err : DOMException) : string :=
  if String.eqb (name err) "NotAllowedError" then
    "Camera access denied. Please enable camera permissions in your browser settings."
  else if String.eqb (name err) "NotFoundError" then
    "No camera found. Please ensure a camera is connected and working."
  else if String.eqb (name err) "NotReadableError" then
    "Camera is already in use or not accessible. Please close other applications using the camera."
  else "Failed to access webcam: " +:+ message err +:+ ".".

(** [getUserMedia] rejected with [err]: the [catch] block. *)
Definition startWebcam_rejected (err : DOMException) (w : World) : World :=
  setError (webcamErrorMessage err)
    (setCameraPermissionStatus "denied" (setIsCameraReady false w)).

(** [loadModels] after [Promise.all] settled. *)
Definition loadModels_resolved (w : World) : World := setModelsLoaded true w.

Definition loadModels_rejected (w : World) : World :=
  setError "Failed to load face tracking models. Please ensure the /models directory is accessible and contains all necessary files." w.

(** ** Annotation loop: [handleVideoPlay] and its interval callback *)

(** [handleVideoPlay], called by the video's [play] event.  With zero video
    dimensions it only schedules itself again; that retry arrives as another
    call. *)
Definition handleVideoPlay (videoWidth videoHeight : Z) (w : World) : World :=
  if negb (videoRef_current w) || negb (canvasRef_current w) || negb (modelsLoaded w)
  then w
  else if (videoWidth =? 0) || (videoHeight =? 0) then w
  else set_loop (S (detectionIntervals w)) (inFlight w) (framesDrawn w) w.

(** The interval callback up to its [await]: draw the mirrored frame and call
    [detectAllFaces], or clear the interval when the video is paused or
    ended. *)
Definition tick (paused ended : bool) (w : World) : World :=
  if negb paused && negb ended
  then set_loop (detectionIntervals w) (S (inFlight w)) (S (framesDrawn w)) w
  else set_loop (Nat.pred (detectionIntervals w)) (inFlight w) (framesDrawn w) w.

(** The interval callback after the [await], with the detections the
    provider returned.  The overlays are drawn first; when
    [drawFaceExpressions] throws, the callback ends there and the tally
    update is not reached.  Otherwise, in [part_000], a non-empty result runs
    the tally updater.  The updater cannot throw at that point, since every
    detection that got past [drawFaceExpressions] has the seven labels as
    keys, so its [None] case is never taken here. *)
Definition tick_resume (v : Variant) (resizedDetections : list Tally.Detection)
    (w : World) : World :=
  let w := set_loop (detectionIntervals w) (Nat.pred (inFlight w)) (framesDrawn w) w in
  if Tally.drawFaceExpressions_throws resizedDetections then w
  else
    match v with
    | page_js => w
    | part_000 =>
        if (0 <? length resizedDetections)%nat then
          match Tally.updateCounts resizedDetections (expressionCounts w) with
          | Some newCounts => setExpressionCounts newCounts w
          | None => w
          end
        else w
    end.

(** [resetExpressionCounts] as a handler. *)
Definition resetExpressionCounts (w : World) : World :=
  setExpressionCounts (Tally.resetExpressionCounts (expressionCounts w)) w.

(** ** Recording pipeline *)

Definition possibleMimeTypes : list string :=
  ["video/webm; codecs=vp9,opus";
   "video/webm; codecs=vp8,opus";
   "video/webm; codecs=vp9";
   "video/webm; codecs=vp8";
   "video/webm";
   "video/mp4; codecs=avc1"].

(** The [for ... of] loop with its [break]; [supportedMimeType] is the value
    of the variable before the loop. *)
Fixpoint firstSupported (supported : string → bool) (types : list string)
    (supportedMimeType : string) : string :=
  match types with
  | [] => supportedMimeType
  | type :: rest =>
      if supported type then type else firstSupported supported rest supportedMimeType
  end.

Definition startRecording (env : Env) (w : World) : World :=
  if negb (videoRef_current w) || negb (canvasRef_current w) || negb (isCameraReady w)
  then setError "Camera not ready or models not loaded. Please ensure camera access and models are loaded." w
  else
    let supportedMimeType := firstSupported (isTypeSupported env) possibleMimeTypes "" in
    if negb (truthy supportedMimeType)
    then setError "Your browser does not support any common video recording codecs. Try updating your browser or using a different one." w
    else
      let options := {| opt_mimeType := supportedMimeType; opt_timeslice := 2000 |} in
      match constructorThrows env with
      | Some e_message =>
          setError ("Failed to create video recorder: " +:+ e_message
                    +:+ ". Try a different browser or check codec support.") w
      | None =>
          let recorder := length (recorders w) in
          let w := set_recorders (recorders w ++ [new_MediaRecorder options]) w in
          let w := set_recordedChunksRef [] w in
          set_timeouts (timeouts w ++ [recorder]) w
      end.

(** The callback of [setTimeout(..., 200)] for [recorder]. *)
Definition startRecording_timeout (recorder : nat) (w : World) : World :=
  match recorders w !! recorder with
  | Some r =>
      match rec_state r with
      | Inactive =>
          let w := set_recorders (<[recorder := MediaRecorder_start None r]> (recorders w)) w in
          setVideoUrl "" (setRecording true (setMediaRecorder (Some recorder) w))
      | _ => w
      end
  | None => w
  end.

(** [recorder.ondataavailable] with [event.data] of the given size. *)
Definition ondataavailable (recorder : nat) (size : Z) (w : World) : World :=
  if size >? 0
  then set_recordedChunksRef
         (recordedChunksRef w ++ [{| chunk_of := recorder; chunk_size := size |}]) w
  else w.

Definition onstart (recorder : nat) (w : World) : World := setError "" w.

(** [URL.createObjectURL(blob)] *)
Definition createObjectURL (blob : Blob) (w : World) : string * World :=
  let url := "blob:" +:+ pretty (urlCounter w) in
  (url, set_objectURLs (<[url := blob]> (objectURLs w)) (S (urlCounter w)) w).

Definition revokeObjectURL (url : string) (w : World) : World :=
  set_objectURLs (delete url (objectURLs w)) (urlCounter w) w.

(** [recorder.onstop]; [supportedMimeType] is the value the handler closed
    over, the type its recorder was built with. *)
Definition onstop (recorder : nat) (w : World) : World :=
  let supportedMimeType :=
    match recorders w !! recorder with
    | Some r => rec_mimeType r
    | None => ""
    end in
  let w :=
    if (0 <? length (recordedChunksRef w))%nat then
      let blob := {| blob_parts := recordedChunksRef w;
                     blob_type := split_semicolon_0 supportedMimeType |} in
      let '(url, w) := createObjectURL blob w in
      setVideoUrl url w
    else
      setVideoUrl ""
        (setError "Recording stopped, but no video data was captured. This might be due to codec issues or camera not providing data." w)
  in
  set_recordedChunksRef [] w.

Definition stopRecording (w : World) : World :=
  match mediaRecorder w with
  | Some recorder =>
      if recording w then
        match recorders w !! recorder with
        | Some r =>
            setRecording false
              (set_recorders (<[recorder := MediaRecorder_stop r]> (recorders w)) w)
        | None => w
        end
      else w
  | None => w
  end.

(** [a.click()] on the temporary anchor: the browser saves the resource at
    [href] under the name in [download]. *)
Definition click (download href : string) (w : World) : World :=
  set_saved (saved w ++ [(download, href)]) w.

(** [downloadVideo]; [now] is the value of [Date.now()].  The two variants
    differ in one statement: only [part_000] calls [a.click()]. *)
Definition downloadVideo (v : Variant) (now : Z) (w : World) : World :=
  if truthy (videoUrl w) then
    let href := videoUrl w in
    let download := "face-tracking-video-" +:+ pretty now +:+ ".webm" in
    let w := match v with
             | part_000 => click download href w
             | page_js => w
             end in
    setVideoUrl "" (revokeObjectURL href w)
  else w.

(** ** The event loop *)

Inductive Event : Type :=
  | ModelsLoaded
  | WebcamRequested
  | WebcamGranted
  | WebcamFailed (err : DOMException)
  | Play (videoWidth videoHeight : Z)
  | Tick (paused ended : bool)
  | Detected (resizedDetections : list Tally.Detection)
  | ClickReset
  | ClickStart (env : Env)
  | ClickStop
  | ClickDownload (now : Z)
  | TimerFired (recorder : nat)
  | Started (recorder : nat)
  | TimesliceElapsed (recorder : nat) (size : Z)
  | Stopped (recorder : nat) (size : Z).

(** Remove the first occurrence of a pending timeout. *)
Fixpoint remove_first (n : nat) (l : list nat) : list nat :=
  match l with
  | [] => []
  | x :: rest => if Nat.eqb n x then rest else x :: remove_first n rest
  end.

(** The periodic flush of a recorder: only a recording recorder whose
    [start] was given a timeslice fires [dataavailable] between [start] and
    [stop]. *)
Definition flushes (r : MediaRecorder) : bool :=
  match rec_state r, rec_timeslice r with
  | Recording, Some _ => true
  | _, _ => false
  end.

(** One task of the event loop.  Clicks go through the [disabled] attribute
    of their button (the download button exists only while [videoUrl] is
    set); a timer, a detection result or a recorder event is delivered only
    if it is pending. *)
Definition step (v : Variant) (w : World) (ev : Event) : World :=
  match ev with
  | ModelsLoaded => loadModels_resolved w
  | WebcamRequested => startWebcam w
  | WebcamGranted => startWebcam_resolved w
  | WebcamFailed err => startWebcam_rejected err w
  | Play videoWidth videoHeight =>
      if modelsLoaded w then handleVideoPlay videoWidth videoHeight w else w
  | Tick paused ended =>
      if (0 <? detectionIntervals w)%nat then tick paused ended w else w
  | Detected ds =>
      if (0 <? inFlight w)%nat then tick_resume v ds w else w
  | ClickReset =>
      match v with part_000 => resetExpressionCounts w | page_js => w end
  | ClickStart env =>
      if recording w || negb (modelsLoaded w) || negb (isCameraReady w)
      then w else startRecording env w
  | ClickStop =>
      if negb (recording w) then w else stopRecording w
  | ClickDownload now =>
      if truthy (videoUrl w) then downloadVideo v now w else w
  | TimerFired recorder =>
      if bool_decide (recorder ∈ timeouts w)
      then startRecording_timeout recorder
             (set_timeouts (remove_first recorder (timeouts w)) w)
      else w
  | Started recorder =>
      match recorders w !! recorder with
      | Some r => if bool_decide (rec_state r = Recording) then onstart recorder w else w
      | None => w
      end
  | TimesliceElapsed recorder size =>
      match recorders w !! recorder with
      | Some r => if flushes r then ondataavailable recorder size w else w
      | None => w
      end
  | Stopped recorder size =>
      match recorders w !! recorder with
      | Some r =>
          if rec_stopping r then
            let w := set_recorders
                       (<[recorder := {| rec_mimeType := rec_mimeType r;
                                         rec_state := rec_state r;
                                         rec_timeslice := rec_timeslice r;
                                         rec_stopping := false |}]> (recorders w)) w in
            onstop recorder (ondataavailable recorder size w)
          else w
      | None => w
      end
  end.

Definition run (v : Variant) (evs : list Event) (w : World) : World :=
  fold_left (step v) evs w.

(** Recorders in state [recording]. *)
Definition activeRecorders (w : World) : list nat :=
  filter (fun i => bool_decide (rec_state <$> recorders w !! i = Some Recording))
         (seq 0 (length (recorders w))).

(** An environment in which every candidate type is supported. *)
Definition allSupported : Env :=
  {| isTypeSupported := fun _ => true; constructorThrows := None |}.

(** ** Notions used in the statements *)

(** The callback of [reduce] in [dominantExpression], on entries instead of
    keys: keep [a] only when its probability is strictly greater. *)
Definition keep (a b : string * Q) : string * Q :=
  if negb (Qle_bool a.2 b.2) then a else b.

(** How often the label [l] occurs in a sequence of increments. *)
Definition occurrences (l : string) (ks : list string) : Z :=
  Z.of_nat (length (filter (λ k, k = l) ks)).

(** A face as the provider returns it: an expressions object over the
    seven labels. *)
Definition vocabulary_face (d : Tally.Detection) : Prop :=
  ∃ e, Tally.expressions d = Some e ∧ Tally.Object_keys e = Tally.LABELS.

(** [k] is the label of the face [d] with the greatest probability, the
    last such label in key order when several tie: every earlier label is
    at most as probable, every later label strictly less. *)
Definition last_maximum (d : Tally.Detection) (k : string) : Prop :=
  ∃ e l1 p l2,
    Tally.expressions d = Some e ∧
    e = (l1 ++ (k, p) :: l2)%list ∧
    Forall (λ a, (a.2 <= p)%Q) l1 ∧
    Forall (λ a, (a.2 < p)%Q) l2.

(** Between two tasks of the event loop the chunk buffer is empty and no
    recorder was started with a timeslice. *)
Definition buffer_idle (w : World) : Prop :=
  recordedChunksRef w = [] ∧ Forall (λ r, rec_timeslice r = None) (recorders w).

(** The labels the tally updater increments for a detection result: the
    dominant label of every face that has an expressions object. *)
Definition dominants (ds : list Tally.Detection) : list string :=
  omap (λ d, Tally.expressions d ≫= Tally.dominantExpression) ds.

(** Does the updater meet a face whose expressions object has no keys? *)
Definition throws (ds : list Tally.Detection) : bool :=
  existsb (λ d, match Tally.expressions d with Some [] => true | _ => false end) ds.

(** The count displayed for a label, and the sum over the seven labels. *)
Definition count_of (counts : gmap string jsnum) (l : string) : Z :=
  match counts !! l with Some (JNum z) => z | _ => 0 end.

Definition total (counts : gmap string jsnum) : Z :=
  foldr (λ l s, count_of counts l + s) 0 Tally.LABELS.

(** Every one of the seven labels holds a non-negative integer. *)
Definition tally_ok (counts : gmap string jsnum) : Prop :=
  ∀ l, l ∈ Tally.LABELS → ∃ c, counts !! l = Some (JNum c) ∧ 0 ≤ c.

(** ** What the component renders *)

(** The [disabled] attributes of the Start and Stop buttons. *)
Definition startButton_disabled (w : World) : bool :=
  recording w || negb (modelsLoaded w) || negb (isCameraReady w).

Definition stopButton_disabled (w : World) : bool := negb (recording w).

(** The conditions under which the Request Camera Access button, the three
    overlays of the video container and the download section are rendered. *)
Definition requestAccessButton_shown (w : World) : bool :=
  negb (isCameraReady w) && negb (String.eqb (cameraPermissionStatus w) "granted").

Definition overlay_initializing (w : World) : bool :=
  negb (isCameraReady w) && String.eqb (cameraPermissionStatus w) "unknown".

Definition overlay_waiting (w : World) : bool :=
  negb (isCameraReady w) && String.eqb (cameraPermissionStatus w) "prompt".

Definition overlay_denied (w : World) : bool :=
  negb (isCameraReady w) && String.eqb (cameraPermissionStatus w) "denied".

Definition downloadSection_shown (w : World) : bool := truthy (videoUrl w).

(** Events that reach a recorder or the recording flags. *)
Definition recorder_event (ev : Event) : bool :=
  match ev with
  | ClickStart _ | ClickStop | TimerFired _ | Stopped _ _ => true
  | _ => false
  end.

(** Every pending start timer belongs to a recorder that was never started,
    and no recorder has two of them. *)
Definition timers_fresh (w : World) : Prop :=
  NoDup (timeouts w) ∧
  ∀ i, i ∈ timeouts w →
       ∃ r, recorders w !! i = Some r ∧ rec_state r = Inactive ∧ rec_stopping r = false.

(** While the recording flag is set, [mediaRecorder] holds a recorder that
    is recording. *)
Definition recording_sound (w : World) : Prop :=
  recording w = true →
  ∃ i r, mediaRecorder w = Some i ∧ recorders w !! i = Some r ∧ rec_state r = Recording.

(** Events that reach a recorder, the chunk buffer or an artifact. *)
Definition artifact_event (ev : Event) : bool :=
  match ev with
  | ClickStart _ | ClickStop | TimerFired _ | TimesliceElapsed _ _
  | Stopped _ _ | ClickDownload _ => true
  | _ => false
  end.

(** A blob worth keeping: at least one chunk, no empty chunk, and a
    container type without codec parameters. *)
Definition playable (blob : Blob) : Prop :=
  blob_parts blob ≠ [] ∧
  Forall (λ c, 0 < chunk_size c) (blob_parts blob) ∧
  blob_type blob ∈ ["video/webm"; "video/mp4"].

(** The artifact on display is a live object URL, every live blob is
    playable, every recorder was built with a candidate type, and the chunk
    buffer holds no empty chunk. *)
Definition artifacts_sound (w : World) : Prop :=
  (videoUrl w = "" ∨ is_Some (objectURLs w !! videoUrl w)) ∧
  map_Forall (λ _ blob, playable blob) (objectURLs w) ∧
  Forall (λ r, rec_mimeType r ∈ possibleMimeTypes) (recorders w) ∧
  Forall (λ c, 0 < chunk_size c) (recordedChunksRef w).

(** Every live object URL was handed out by [createObjectURL] under a
    number below the counter. *)
Definition urls_numbered (w : World) : Prop :=
  ∀ url, is_Some (objectURLs w !! url) →
         ∃ n, (n < urlCounter w)%nat ∧ url = "blob:" +:+ pretty n.

(** Nothing has been drawn, detected, counted, recorded or saved. *)
Definition idle (w : World) : Prop :=
  detectionIntervals w = 0%nat ∧ inFlight w = 0%nat ∧ framesDrawn w = 0%nat ∧
  recorders w = [] ∧ timeouts w = [] ∧ recording w = false ∧ videoUrl w = "" ∧
  recordedChunksRef w = [] ∧ expressionCounts w = Tally.zeroCounts ∧ saved w = [].

(** A run of [dataavailable] events of one recorder, and the chunks that
    such a run leaves in the buffer. *)
Definition deliver (recorder : nat) (sizes : list Z) (w : World) : World :=
  fold_left (λ w size, ondataavailable recorder size w) sizes w.

Definition chunks_of (recorder : nat) (sizes : list Z) : list Chunk :=
  map (λ size, {| chunk_of := recorder; chunk_size := size |})
      (filter (λ size, 0 < size) sizes).

(** The class a rejection falls into, by the [err.name] tests of the
    [catch] block of [startWebcam]. *)
Inductive FailureClass : Type :=
  | permission_denied | device_not_found | device_unavailable | other.

Definition classify (err : DOMException) : FailureClass :=
  if String.eqb (name err) "NotAllowedError" then permission_denied
  else if String.eqb (name err) "NotFoundError" then device_not_found
  else if String.eqb (name err) "NotReadableError" then device_unavailable
  else other.

(** The component with models loaded and the camera granted. *)
Definition readyWorld (v : Variant) : World :=
  run v [ModelsLoaded; WebcamRequested; WebcamGranted] initialWorld.

(** * Dominant expression *)

Section Dominant.

Local Open Scope Q_scope.
Local Open Scope list_scope.

Lemma keep_fold_last_maximum (rest : list (string * Q)) :
  ∀ acc, ∃ l1 l2,
    acc :: rest = l1 ++ fold_left keep rest acc :: l2 ∧
    Forall (λ a, a.2 <= (fold_left keep rest acc).2) l1 ∧
    Forall (λ a, a.2 < (fold_left keep rest acc).2) l2 ∧
    acc.2 <= (fold_left keep rest acc).2.
Proof.
  induction rest as [|b rest IH]; intros acc; simpl.
  - exists [], []. repeat split; auto. apply Qle_refl.
  - destruct (IH (keep acc b)) as (l1 & l2 & Heq & H1 & H2 & Hk).
    set (r := fold_left keep rest (keep acc b)) in *. clearbody r.
    unfold keep in Heq, Hk.
    destruct (Qle_bool acc.2 b.2) eqn:Hle; simpl in Heq, Hk.
    + apply Qle_bool_iff in Hle.
      assert (Hacc : acc.2 <= r.2) by (apply Qle_trans with b.2; done).
      exists (acc :: l1), l2. split; [by rewrite Heq|].
      split; [by constructor|]. by split.
    + assert (Hlt : b.2 < acc.2).
      { apply Qnot_le_lt. intros H. apply Qle_bool_iff in H. congruence. }
      destruct l1 as [|a l1]; simpl in Heq.
      * injection Heq as Hr Hl2. subst r l2. exists [], (b :: rest).
        split; [done|]. split; [constructor|]. split; [by constructor|done].
      * injection Heq as Ha Hrest. subst a.
        exists (acc :: b :: l1), l2. split; [by rewrite Hrest|].
        split; [|by split].
        apply Forall_cons in H1 as [_ H1].
        constructor; [done|]. constructor; [|done].
        apply Qlt_le_weak. apply Qlt_le_trans with acc.2; done.
Qed.

Lemma get_of_entry (e : Tally.Expressions) (k : string) (p : Q) :
  NoDup (Tally.Object_keys e) → (k, p) ∈ e → Tally.get e k = Some p.
Proof.
  induction e as [|[k' p'] e IH]; simpl; intros Hnd Hin.
  - by apply elem_of_nil in Hin.
  - apply NoDup_cons in Hnd as [Hk' Hnd].
    apply elem_of_cons in Hin as [Heq|Hin].
    + injection Heq as -> ->. by rewrite String.eqb_refl.
    + destruct (String.eqb_spec k k') as [->|_]; [|by apply IH].
      exfalso. apply Hk'. apply list_elem_of_fmap. by exists (k', p).
Qed.

Lemma reduce_keys_entries (e : Tally.Expressions) (rest : list (string * Q)) :
  ∀ acc,
    (∀ a, a ∈ acc :: rest → Tally.get e a.1 = Some a.2) →
    fold_left (λ a b, if js_gt (Tally.get e a) (Tally.get e b) then a else b)
              (map fst rest) acc.1
    = (fold_left keep rest acc).1.
Proof.
  induction rest as [|b rest IH]; intros acc Hget; simpl; [done|].
  rewrite (Hget acc), (Hget b) by set_solver. simpl.
  assert (Hk : (if negb (Qle_bool acc.2 b.2) then acc.1 else b.1) = (keep acc b).1).
  { unfold keep. by destruct (negb _). }
  rewrite Hk. apply IH. intros a Ha. apply Hget.
  apply elem_of_cons in Ha as [->|Ha]; [|set_solver].
  unfold keep. destruct (negb _); set_solver.
Qed.

(** C1 (as the code has it): on an expressions object with distinct keys and
    at least one key, [dominantExpression] returns the key of the LAST entry,
    in key order, whose probability is maximal: every earlier entry is at
    most as probable, every later entry strictly less.  With a unique
    maximum that is the maximum; on a tie it is the later label. *)
Theorem dominantExpression_last_maximum (e : Tally.Expressions) :
  NoDup (Tally.Object_keys e) → e ≠ [] →
  ∃ l1 k p l2,
    e = l1 ++ (k, p) :: l2 ∧
    Tally.dominantExpression e = Some k ∧
    Forall (λ a, a.2 <= p) l1 ∧
    Forall (λ a, a.2 < p) l2.
Proof.
  intros Hnd Hne. destruct e as [|acc rest]; [done|].
  destruct (keep_fold_last_maximum rest acc) as (l1 & l2 & Heq & H1 & H2 & _).
  unfold Tally.dominantExpression, reduce. simpl Tally.Object_keys. cbv iota.
  rewrite reduce_keys_entries.
  - destruct (fold_left keep rest acc) as [k p] eqn:Hr. simpl in *.
    by exists l1, k, p, l2.
  - intros [k p] Hin. by apply get_of_entry.
Qed.

Lemma dominantExpression_last_maximum_witness :
  ∃ l1 k p l2,
    Tally.FaceExpressions (1#2) (1#2) 0 0 0 0 0 = l1 ++ (k, p) :: l2 ∧
    Tally.dominantExpression (Tally.FaceExpressions (1#2) (1#2) 0 0 0 0 0) = Some k ∧
    Forall (λ a, a.2 <= p) l1 ∧
    Forall (λ a, a.2 < p) l2.
Proof.
  apply dominantExpression_last_maximum.
  - apply (bool_decide_unpack _). vm_compute. exact I.
  - discriminate.
Defined.

(** C1 (as stated) fails: neutral and happy tie for the maximum 1/2, and the
    selection is happy, the later of the two, not neutral. *)
Lemma dominantExpression_tie_counterexample :
  let e := Tally.FaceExpressions (1#2) (1#2) 0 0 0 0 0 in
  Tally.Object_keys e = Tally.LABELS ∧
  Tally.get e "neutral" = Some (1#2) ∧
  Tally.get e "happy" = Some (1#2) ∧
  Forall (λ a, a.2 <= 1#2) e ∧
  Tally.dominantExpression e = Some "happy" ∧
  Tally.dominantExpression e ≠ Some "neutral".
Proof.
  cbv zeta. repeat split; try reflexivity; try discriminate.
  repeat constructor; by apply Qle_bool_iff.
Qed.

Lemma dominantExpression_last_entry (e : Tally.Expressions) :
  NoDup (Tally.Object_keys e) → e ≠ [] →
  ∃ l1 k p l2,
    e = l1 ++ (k, p) :: l2 ∧
    Tally.dominantExpression e = Some k ∧
    Forall (λ a, a.2 <= p) l1 ∧
    Forall (λ a, a.2 < p) l2.
Proof.
  intros Hnd Hne. destruct e as [|acc rest]; [done|].
  destruct (keep_fold_last_maximum rest acc) as (l1 & l2 & Heq & H1 & H2 & _).
  unfold Tally.dominantExpression, reduce. simpl Tally.Object_keys. cbv iota.
  rewrite reduce_keys_entries.
  - destruct (fold_left keep rest acc) as [k p] eqn:Hr. simpl in *.
    by exists l1, k, p, l2.
  - intros [k p] Hin. by apply get_of_entry.
Qed.

Example dominant_unique_maximum :
  Tally.dominantExpression
    (Tally.FaceExpressions (1#10) (7#10) (1#20) (1#20) (1#20) (3#100) (2#100))
  = Some "happy".
Proof. reflexivity. Qed.

Example dominant_all_equal :
  Tally.dominantExpression
    (Tally.FaceExpressions (1#7) (1#7) (1#7) (1#7) (1#7) (1#7) (1#7))
  = Some "surprised".
Proof. reflexivity. Qed.

Example dominant_no_keys : Tally.dominantExpression [] = None.
Proof. reflexivity. Qed.

End Dominant.

(** * Tally store *)

Lemma occurrences_cons (l k : string) (ks : list string) :
  occurrences l (k :: ks) = (if decide (k = l) then 1 else 0) + occurrences l ks.
Proof.
  unfold occurrences. rewrite filter_cons. destruct (decide (k = l)); simpl length; lia.
Qed.

Lemma occurrences_nonneg (l : string) (ks : list string) : 0 ≤ occurrences l ks.
Proof. unfold occurrences. lia. Qed.

Lemma MAX_COUNT_eq : MAX_COUNT = 9007199254740992.
Proof. reflexivity. Qed.

Lemma labels_own (l : string) : l ∈ Tally.LABELS → l ≠ "__proto__".
Proof.
  unfold Tally.LABELS. rewrite !elem_of_cons, elem_of_nil.
  intros H. repeat destruct H as [->|H]; done.
Qed.

Lemma increment_own (k : string) (counts : gmap string jsnum) :
  k ≠ "__proto__" →
  Tally.increment k counts = <[k := js_postinc (counts !! k)]> counts.
Proof. intros H. unfold Tally.increment. by apply String.eqb_neq in H as ->. Qed.

Lemma double_add1_exact (z : Z) : 0 ≤ z → z < MAX_COUNT → double_add1 z = z + 1.
Proof.
  intros H0 H1. unfold double_add1.
  assert (- MAX_COUNT ≤ z) as Hlo by (rewrite MAX_COUNT_eq; lia).
  apply Z.leb_le in Hlo as ->. by apply Z.ltb_lt in H1 as ->.
Qed.

Lemma double_add1_mono (z : Z) : z ≤ double_add1 z.
Proof. unfold double_add1. repeat case_match; lia. Qed.

Lemma increment_lookup_eq (counts : gmap string jsnum) (l : string) (c : Z) :
  l ≠ "__proto__" → counts !! l = Some (JNum c) → 0 ≤ c → c < MAX_COUNT →
  Tally.increment l counts !! l = Some (JNum (c + 1)).
Proof.
  intros Hl H Hpos Hc. rewrite increment_own, H, lookup_insert_eq by done. simpl.
  by rewrite double_add1_exact.
Qed.

Lemma increment_lookup_ne (counts : gmap string jsnum) (k l : string) :
  k ≠ l → Tally.increment k counts !! l = counts !! l.
Proof.
  intros H. unfold Tally.increment.
  destruct (String.eqb k "__proto__"); [done|]. by apply lookup_insert_ne.
Qed.

Lemma increment_lookup_mono (counts : gmap string jsnum) (k l : string) (c : Z) :
  counts !! l = Some (JNum c) →
  ∃ c', Tally.increment k counts !! l = Some (JNum c') ∧ c ≤ c'.
Proof.
  intros H. destruct (decide (k = l)) as [->|Hne].
  - unfold Tally.increment. destruct (String.eqb l "__proto__").
    + exists c. split; [done|lia].
    + rewrite H, lookup_insert_eq. simpl. eexists. split; [done|].
      apply double_add1_mono.
  - exists c. rewrite increment_lookup_ne by done. split; [done|lia].
Qed.

Lemma increments_lookup_mono (ks : list string) :
  ∀ (counts : gmap string jsnum) (l : string) (c : Z),
    counts !! l = Some (JNum c) →
    ∃ c', Tally.increments ks counts !! l = Some (JNum c') ∧ c ≤ c'.
Proof.
  induction ks as [|k ks IH]; intros counts l c Hc.
  - exists c. split; [done|lia].
  - change (Tally.increments (k :: ks) counts)
      with (Tally.increments ks (Tally.increment k counts)).
    destruct (increment_lookup_mono counts k l c Hc) as (c1 & H1 & Hle1).
    destruct (IH _ l c1 H1) as (c' & H' & Hle'). exists c'. split; [done|lia].
Qed.

Lemma increments_lookup (ks : list string) :
  ∀ (counts : gmap string jsnum) (l : string) (c : Z),
    l ≠ "__proto__" →
    counts !! l = Some (JNum c) →
    0 ≤ c →
    c + occurrences l ks ≤ MAX_COUNT →
    Tally.increments ks counts !! l = Some (JNum (c + occurrences l ks)).
Proof.
  induction ks as [|k ks IH]; intros counts l c Hl Hc Hpos Hmax.
  - simpl. rewrite Hc. do 2 f_equal. unfold occurrences. simpl. lia.
  - change (Tally.increments (k :: ks) counts)
      with (Tally.increments ks (Tally.increment k counts)).
    rewrite occurrences_cons in Hmax |- *.
    pose proof (occurrences_nonneg l ks) as Hocc.
    destruct (decide (k = l)) as [->|Hne].
    + rewrite (IH _ l (c + 1)); [do 2 f_equal; lia|done| |lia|lia].
      apply increment_lookup_eq; [done..|lia].
    + rewrite (IH _ l c); [do 2 f_equal; lia|done| |done|lia].
      by rewrite increment_lookup_ne.
Qed.

Lemma increments_untouched (ks : list string) :
  ∀ (counts : gmap string jsnum) (l : string),
    l ∉ ks → Tally.increments ks counts !! l = counts !! l.
Proof.
  induction ks as [|k ks IH]; intros counts l Hl; [done|].
  apply not_elem_of_cons in Hl as [Hne Hl].
  change (Tally.increments (k :: ks) counts)
    with (Tally.increments ks (Tally.increment k counts)).
  rewrite IH by done. by apply increment_lookup_ne.
Qed.

Lemma zeroCounts_lookup (l : string) :
  l ∈ Tally.LABELS → Tally.zeroCounts !! l = Some (JNum 0).
Proof.
  unfold Tally.LABELS. rewrite !elem_of_cons, elem_of_nil.
  intros H. repeat destruct H as [->|H]; try reflexivity. done.
Qed.

(** C2: from any starting tally, after any sequence of increments the count
    of a label is its starting count plus the number of increments of that
    label, for counts in the range where [++] is exact: a starting count
    that is not negative and a final count of at most 2^53.  Reset gives
    every one of the seven labels the count 0, whatever the prior tally, and
    the reset tally has exactly the seven labels. *)
Theorem tally_increments_and_reset (ks : list string)
    (counts prior : gmap string jsnum) (l : string) (c : Z) :
  l ∈ Tally.LABELS →
  counts !! l = Some (JNum c) →
  0 ≤ c →
  c + occurrences l ks ≤ MAX_COUNT →
  Tally.increments ks counts !! l = Some (JNum (c + occurrences l ks)) ∧
  Tally.resetExpressionCounts prior !! l = Some (JNum 0) ∧
  dom (Tally.resetExpressionCounts prior) = list_to_set Tally.LABELS.
Proof.
  intros Hl Hc Hpos Hmax. split; [apply increments_lookup; [by apply labels_own|done..]|].
  split; [by apply zeroCounts_lookup|].
  apply (bool_decide_unpack _). vm_compute. exact I.
Qed.

Lemma tally_increments_and_reset_witness :
  Tally.increments ["happy"; "sad"; "happy"] (<["happy" := JNum 5]> Tally.zeroCounts)
    !! "happy" = Some (JNum (5 + occurrences "happy" ["happy"; "sad"; "happy"])) ∧
  Tally.resetExpressionCounts (<["happy" := JNum 5]> Tally.zeroCounts) !! "happy"
    = Some (JNum 0) ∧
  dom (Tally.resetExpressionCounts (<["happy" := JNum 5]> Tally.zeroCounts))
    = list_to_set Tally.LABELS.
Proof.
  apply tally_increments_and_reset.
  - apply (bool_decide_unpack _). vm_compute. exact I.
  - reflexivity.
  - lia.
  - vm_compute. discriminate.
Defined.

Example increment_stops_at_limit :
  Tally.increment "happy" (<["happy" := JNum MAX_COUNT]> Tally.zeroCounts) !! "happy"
  = Some (JNum MAX_COUNT).
Proof. reflexivity. Qed.

Example add1_beyond_limit_rounds_to_even :
  double_add1 MAX_COUNT = MAX_COUNT ∧ double_add1 (MAX_COUNT + 2) = MAX_COUNT + 4 ∧
  double_add1 (- MAX_COUNT) = - MAX_COUNT + 1 ∧ double_add1 (4 * MAX_COUNT) = 4 * MAX_COUNT.
Proof. repeat split. Qed.

Example increment_proto_is_ignored :
  Tally.increment "__proto__" Tally.zeroCounts = Tally.zeroCounts.
Proof. reflexivity. Qed.

(** * Annotation loop *)

Lemma fold_left_choice {A : Type} (f : A → A → A) (l : list A) :
  (∀ a b, f a b = a ∨ f a b = b) →
  ∀ x, fold_left f l x ∈ x :: l.
Proof.
  intros Hf. induction l as [|b l IH]; intros x; simpl.
  - by left.
  - specialize (IH (f x b)). apply elem_of_cons in IH as [->|IH].
    + destruct (Hf x b) as [->| ->]; set_solver.
    + set_solver.
Qed.

Lemma dominantExpression_Some_key (e : Tally.Expressions) (k : string) :
  Tally.dominantExpression e = Some k → k ∈ Tally.Object_keys e.
Proof.
  destruct e as [|[k0 p] e]; [done|].
  unfold Tally.dominantExpression, reduce. simpl Tally.Object_keys. cbv iota.
  intros [= <-]. apply fold_left_choice. intros a b. destruct (js_gt _ _); auto.
Qed.

Lemma dominantExpression_None (e : Tally.Expressions) :
  Tally.dominantExpression e = None ↔ e = [].
Proof. split; [|by intros ->]. by destruct e. Qed.

Lemma updateCounts_dominants (ds : list Tally.Detection) :
  ∀ counts : gmap string jsnum,
    Tally.updateCounts ds counts
    = if throws ds then None else Some (Tally.increments (dominants ds) counts).
Proof.
  induction ds as [|d ds IH]; intros counts; [done|].
  simpl. destruct (Tally.expressions d) as [e|] eqn:He; simpl.
  - destruct e as [|a e]; [done|].
    destruct (Tally.dominantExpression (a :: e)) as [k|] eqn:Hk.
    + simpl. by rewrite IH.
    + by apply dominantExpression_None in Hk.
  - by rewrite IH.
Qed.

Lemma dominants_cons_Some (d : Tally.Detection) (ds : list Tally.Detection)
    (e : Tally.Expressions) (k : string) :
  Tally.expressions d = Some e → Tally.dominantExpression e = Some k →
  dominants (d :: ds) = k :: dominants ds.
Proof. intros He Hk. unfold dominants. simpl. rewrite He. simpl. by rewrite Hk. Qed.

Lemma LABELS_NoDup : NoDup Tally.LABELS.
Proof. apply (bool_decide_unpack _). vm_compute. exact I. Qed.

Lemma occurrences_absent (l : string) (ks : list string) :
  l ∉ ks → occurrences l ks = 0.
Proof.
  induction ks as [|k ks IH]; intros Hl; [done|].
  apply not_elem_of_cons in Hl as [Hne Hl].
  rewrite occurrences_cons, decide_False by done. rewrite IH by done. lia.
Qed.

Lemma vocabulary_face_dominant (d : Tally.Detection) :
  vocabulary_face d →
  ∃ e k, Tally.expressions d = Some e ∧ e ≠ [] ∧ Tally.isFaceExpressions e = true ∧
         Tally.dominantExpression e = Some k ∧ k ∈ Tally.LABELS ∧ last_maximum d k.
Proof.
  intros (e & He & Hkeys).
  assert (Hne : e ≠ []) by (by intros ->).
  assert (Hnd : NoDup (Tally.Object_keys e)) by (rewrite Hkeys; apply LABELS_NoDup).
  destruct (dominantExpression_last_entry e Hnd Hne) as (l1 & k & p & l2 & Heq & Hk & H1 & H2).
  exists e, k. repeat split; try done.
  - unfold Tally.isFaceExpressions. by apply bool_decide_eq_true.
  - rewrite <- Hkeys, Heq. unfold Tally.Object_keys.
    rewrite map_app. apply elem_of_app. right. by left.
  - by exists e, l1, p, l2.
Qed.

Lemma faces_dominants (ds : list Tally.Detection) :
  Forall vocabulary_face ds →
  throws ds = false ∧ Tally.drawFaceExpressions_throws ds = false ∧
  length (dominants ds) = length ds ∧
  Forall (λ k, k ∈ Tally.LABELS) (dominants ds) ∧
  Forall2 last_maximum ds (dominants ds).
Proof.
  unfold Tally.drawFaceExpressions_throws.
  induction 1 as [|d ds Hd _ (IH1 & IH2 & IH3 & IH4 & IH5)].
  - repeat split; constructor.
  - destruct (vocabulary_face_dominant d Hd) as (e & k & He & Hne & Hface & Hk & Hin & Hlast).
    apply negb_false_iff in IH2.
    rewrite (dominants_cons_Some d ds e k) by done. simpl.
    rewrite He, Hface, IH1, IH2, IH3. simpl.
    split; [by destruct e|]. split; [done|]. split; [done|].
    split; by constructor.
Qed.

Lemma tick_resume_dominants (ds : list Tally.Detection) (w : World) :
  Forall vocabulary_face ds →
  expressionCounts (tick_resume part_000 ds w)
  = Tally.increments (dominants ds) (expressionCounts w).
Proof.
  intros Hds. destruct (faces_dominants ds Hds) as (Ht & Hdraw & _).
  unfold tick_resume. cbv zeta. rewrite Hdraw.
  change (expressionCounts (set_loop _ _ _ w)) with (expressionCounts w).
  rewrite updateCounts_dominants, Ht. by destruct ds.
Qed.

Lemma drawFaceExpressions_returns (ds : list Tally.Detection) :
  Tally.drawFaceExpressions_throws ds = false ↔ Forall vocabulary_face ds.
Proof.
  unfold Tally.drawFaceExpressions_throws. rewrite negb_false_iff.
  induction ds as [|d ds IH]; simpl.
  - split; [constructor|done].
  - rewrite andb_true_iff, IH, Forall_cons. split; intros [H1 H2]; (split; [|done]).
    + destruct (Tally.expressions d) as [e|] eqn:He; [|done].
      exists e. split; [done|]. by apply bool_decide_eq_true in H1.
    + destruct H1 as (e & -> & He). by apply bool_decide_eq_true.
Qed.

(** C8 (as the code has it): a tick on a playing video, completed with the
    detections [ds], each a face over the seven labels, applies exactly one
    increment per face and nothing else.  The label incremented for a face
    is the one with the greatest probability, the LATER one in vocabulary
    order when several tie.  The increments are as many as the faces, and,
    for counts in the exact range of [++], a label's count grows by the
    number of faces it is selected for. *)
Theorem tick_increments_once_per_face (w : World) (ds : list Tally.Detection) :
  Forall vocabulary_face ds →
  ∃ ks,
    Forall2 last_maximum ds ks ∧
    length ks = length ds ∧
    expressionCounts (tick_resume part_000 ds (tick false false w))
      = Tally.increments ks (expressionCounts w) ∧
    ∀ l c, expressionCounts w !! l = Some (JNum c) →
           0 ≤ c →
           c + occurrences l ks ≤ MAX_COUNT →
           expressionCounts (tick_resume part_000 ds (tick false false w)) !! l
             = Some (JNum (c + occurrences l ks)).
Proof.
  intros Hds. destruct (faces_dominants ds Hds) as (_ & _ & Hlen & Hin & Hlast).
  exists (dominants ds). split; [done|]. split; [done|].
  assert (Heq : expressionCounts (tick_resume part_000 ds (tick false false w))
                = Tally.increments (dominants ds) (expressionCounts w))
    by (by rewrite tick_resume_dominants).
  split; [done|]. intros l c Hc Hpos Hmax. rewrite Heq.
  destruct (decide (l = "__proto__")) as [->|Hl].
  - assert (Hout : "__proto__" ∉ dominants ds).
    { intros H. pose proof (proj1 (Forall_forall _ _) Hin _ H) as HL.
      by apply labels_own in HL. }
    rewrite increments_untouched, occurrences_absent by done.
    rewrite Hc. do 2 f_equal. lia.
  - by apply increments_lookup.
Qed.

Lemma tick_increments_once_per_face_witness :
  ∃ ks,
    Forall2 last_maximum
      [ {| Tally.expressions := Some (Tally.FaceExpressions (1#2) (1#2) 0 0 0 0 0) |};
        {| Tally.expressions := Some (Tally.FaceExpressions 0 0 (1#4) 0 0 0 (3#4)) |} ] ks ∧
    length ks = 2%nat ∧
    expressionCounts
      (tick_resume part_000
         [ {| Tally.expressions := Some (Tally.FaceExpressions (1#2) (1#2) 0 0 0 0 0) |};
           {| Tally.expressions := Some (Tally.FaceExpressions 0 0 (1#4) 0 0 0 (3#4)) |} ]
         (tick false false (readyWorld part_000)))
      = Tally.increments ks (expressionCounts (readyWorld part_000)) ∧
    ∀ l c, expressionCounts (readyWorld part_000) !! l = Some (JNum c) →
           0 ≤ c →
           c + occurrences l ks ≤ MAX_COUNT →
           expressionCounts
             (tick_resume part_000
                [ {| Tally.expressions := Some (Tally.FaceExpressions (1#2) (1#2) 0 0 0 0 0) |};
                  {| Tally.expressions := Some (Tally.FaceExpressions 0 0 (1#4) 0 0 0 (3#4)) |} ]
                (tick false false (readyWorld part_000))) !! l
             = Some (JNum (c + occurrences l ks)).
Proof.
  apply (tick_increments_once_per_face (readyWorld part_000)).
  repeat constructor; eexists; (split; reflexivity).
Defined.

(** C8 (as stated) fails on a tie: for a face whose labels neutral and happy
    both have the greatest probability 1/2, the dominant expression as the
    specification defines it is neutral, the first of the two, but the tick
    increments happy and leaves neutral at 0. *)
Lemma tick_tie_counts_later_label_counterexample :
  let e := Tally.FaceExpressions (1#2) (1#2) 0 0 0 0 0 in
  let w := run part_000
             [Play 640 480; Tick false false; Detected [ {| Tally.expressions := Some e |} ]]
             (readyWorld part_000) in
  Tally.Object_keys e = Tally.LABELS ∧
  Tally.get e "neutral" = Some (1#2) ∧
  Forall (λ a, (a.2 <= 1#2)%Q) e ∧
  expressionCounts (readyWorld part_000) !! "neutral" = Some (JNum 0) ∧
  expressionCounts w !! "neutral" = Some (JNum 0) ∧
  expressionCounts w !! "happy" = Some (JNum 1).
Proof.
  cbv zeta. repeat split; try reflexivity.
  repeat constructor; by apply Qle_bool_iff.
Qed.

Lemma tick_paused_or_ended (paused ended : bool) (w : World) :
  paused || ended = true →
  inFlight (tick paused ended w) = inFlight w ∧
  framesDrawn (tick paused ended w) = framesDrawn w ∧
  expressionCounts (tick paused ended w) = expressionCounts w ∧
  detectionIntervals (tick paused ended w) = Nat.pred (detectionIntervals w).
Proof. destruct paused, ended; done. Qed.

Lemma run_cons (v : Variant) (ev : Event) (evs : list Event) (w : World) :
  run v (ev :: evs) w = run v evs (step v w ev).
Proof. reflexivity. Qed.

Lemma step_Tick_playing (v : Variant) (w : World) :
  (0 < detectionIntervals w)%nat →
  step v w (Tick false false) = tick false false w.
Proof. intros H. simpl. by apply Nat.ltb_lt in H as ->. Qed.

(** C9 (as the code has it): the interval callback has no busy guard.  While
    the interval runs, every tick on a video that is neither paused nor
    ended draws a frame and starts a detection call whatever the number of
    calls still pending, so [n] ticks without an intervening result leave
    [n] more calls in flight. *)
Theorem ticks_stack_detection_calls (v : Variant) (n : nat) :
  ∀ w : World,
    (0 < detectionIntervals w)%nat →
    inFlight (run v (replicate n (Tick false false)) w) = (inFlight w + n)%nat ∧
    framesDrawn (run v (replicate n (Tick false false)) w) = (framesDrawn w + n)%nat.
Proof.
  induction n as [|n IH]; intros w Hw.
  - simpl. split; lia.
  - change (replicate (S n) (Tick false false))
      with (Tick false false :: replicate n (Tick false false)).
    rewrite run_cons, step_Tick_playing by done.
    destruct (IH (tick false false w)) as [H1 H2]; [done|].
    rewrite H1, H2. simpl. split; lia.
Qed.

Lemma ticks_stack_detection_calls_witness :
  inFlight (run page_js (replicate 3 (Tick false false))
              (run page_js [Play 640 480] (readyWorld page_js))) = 3%nat ∧
  framesDrawn (run page_js (replicate 3 (Tick false false))
                 (run page_js [Play 640 480] (readyWorld page_js))) = 3%nat.
Proof.
  apply (ticks_stack_detection_calls page_js 3
           (run page_js [Play 640 480] (readyWorld page_js))).
  vm_compute. lia.
Defined.

(** C9 (as stated) fails: a second tick that fires while the first tick's
    detection call is pending is not a no-op; it draws another frame and
    puts a second call in flight. *)
Lemma tick_while_busy_counterexample :
  let w1 := run page_js [Play 640 480; Tick false false] (readyWorld page_js) in
  let w2 := step page_js w1 (Tick false false) in
  inFlight w1 = 1%nat ∧ inFlight w2 = 2%nat ∧
  framesDrawn w1 = 1%nat ∧ framesDrawn w2 = 2%nat.
Proof. cbv zeta. repeat split; reflexivity. Qed.

(** * Capture source *)

(** C7 (as the code has it): a rejected camera request is classified by
    [err.name] into four classes; errors of different classes get different
    messages; and for every class the camera is marked not ready and the
    permission status is set to denied. *)
Theorem startWebcam_rejected_classified (err err' : DOMException) (w : World) :
  classify err ≠ classify err' →
  webcamErrorMessage err ≠ webcamErrorMessage err' ∧
  error (startWebcam_rejected err w) = webcamErrorMessage err ∧
  isCameraReady (startWebcam_rejected err w) = false ∧
  cameraPermissionStatus (startWebcam_rejected err w) = "denied".
Proof.
  intros Hne. split; [|done].
  revert Hne. unfold classify, webcamErrorMessage.
  destruct (String.eqb (name err) "NotAllowedError"),
           (String.eqb (name err) "NotFoundError"),
           (String.eqb (name err) "NotReadableError"),
           (String.eqb (name err') "NotAllowedError"),
           (String.eqb (name err') "NotFoundError"),
           (String.eqb (name err') "NotReadableError");
    simpl; intros Hne; first [ done | discriminate ].
Qed.

Lemma startWebcam_rejected_classified_witness :
  webcamErrorMessage {| name := "NotFoundError"; message := "Requested device not found" |}
    ≠ webcamErrorMessage {| name := "AbortError"; message := "Starting videoinput failed" |} ∧
  error (startWebcam_rejected
           {| name := "NotFoundError"; message := "Requested device not found" |}
           initialWorld)
    = webcamErrorMessage {| name := "NotFoundError"; message := "Requested device not found" |} ∧
  isCameraReady (startWebcam_rejected
                   {| name := "NotFoundError"; message := "Requested device not found" |}
                   initialWorld) = false ∧
  cameraPermissionStatus (startWebcam_rejected
                   {| name := "NotFoundError"; message := "Requested device not found" |}
                   initialWorld) = "denied".
Proof.
  apply (startWebcam_rejected_classified
           {| name := "NotFoundError"; message := "Requested device not found" |}
           {| name := "AbortError"; message := "Starting videoinput failed" |}).
  vm_compute. discriminate.
Defined.

(** C7 (as stated) fails: a missing camera is a device fault, and the status
    after it is denied, the same as after a permission rejection; no
    rejection leads to a status other than denied. *)
Lemma device_fault_status_counterexample :
  let err := {| name := "NotFoundError"; message := "Requested device not found" |} in
  let w := run page_js [WebcamRequested; WebcamFailed err] initialWorld in
  classify err = device_not_found ∧
  cameraPermissionStatus w = "denied" ∧
  cameraPermissionStatus w ≠ "errored" ∧
  error w = "No camera found. Please ensure a camera is connected and working.".
Proof. cbv zeta. repeat split; try reflexivity. discriminate. Qed.

(** * Recording pipeline *)

Section Negotiation.

Local Open Scope list_scope.

Variable supported : string → bool.

Lemma firstSupported_first (l1 l2 : list string) (t d : string) :
  Forall (λ x, supported x = false) l1 →
  supported t = true →
  firstSupported supported (l1 ++ t :: l2) d = t.
Proof.
  induction 1 as [|x l1 Hx _ IH]; intros Ht; simpl.
  - by rewrite Ht.
  - rewrite Hx. by apply IH.
Qed.

Lemma firstSupported_none (l : list string) (d : string) :
  Forall (λ x, supported x = false) l →
  firstSupported supported l d = d.
Proof. induction 1 as [|x l Hx _ IH]; simpl; [done|]. by rewrite Hx. Qed.

End Negotiation.

Lemma possibleMimeTypes_truthy (t : string) :
  t ∈ possibleMimeTypes → truthy t = true.
Proof.
  unfold possibleMimeTypes. rewrite !elem_of_cons, elem_of_nil.
  intros H. repeat destruct H as [->|H]; try reflexivity. done.
Qed.

(** C5: with the camera ready, [startRecording] builds its recorder with the
    first entry of [possibleMimeTypes] that [isTypeSupported] accepts; when
    no entry is accepted it sets the unsupported-codec error and changes
    nothing else: no recorder, no pending start, no session. *)
Theorem startRecording_codec_negotiation (env : Env) (w : World) :
  videoRef_current w = true →
  canvasRef_current w = true →
  isCameraReady w = true →
  (∀ l1 t l2,
      possibleMimeTypes = (l1 ++ t :: l2)%list →
      Forall (λ x, isTypeSupported env x = false) l1 →
      isTypeSupported env t = true →
      constructorThrows env = None →
      recorders (startRecording env w)
        = (recorders w ++ [ {| rec_mimeType := t; rec_state := Inactive;
                               rec_timeslice := None; rec_stopping := false |} ])%list ∧
      timeouts (startRecording env w) = (timeouts w ++ [length (recorders w)])%list) ∧
  (Forall (λ x, isTypeSupported env x = false) possibleMimeTypes →
      startRecording env w
        = setError "Your browser does not support any common video recording codecs. Try updating your browser or using a different one." w ∧
      recorders (startRecording env w) = recorders w ∧
      timeouts (startRecording env w) = timeouts w ∧
      mediaRecorder (startRecording env w) = mediaRecorder w ∧
      recording (startRecording env w) = recording w).
Proof.
  intros Hv Hc Hr. unfold startRecording. rewrite Hv, Hc, Hr.
  change (negb true || negb true || negb true) with false. cbv iota zeta. split.
  - intros l1 t l2 Hl Hl1 Ht Hctor.
    assert (Htruthy : truthy t = true).
    { apply possibleMimeTypes_truthy. rewrite Hl.
      apply elem_of_app. right. apply elem_of_cons. by left. }
    rewrite Hl, firstSupported_first, Htruthy, Hctor by done. done.
  - intros Hnone. by rewrite firstSupported_none.
Qed.

Lemma startRecording_codec_negotiation_witness :
  let env := {| isTypeSupported := λ t, String.eqb t "video/webm";
                constructorThrows := None |} in
  let w := readyWorld page_js in
  (∀ l1 t l2,
      possibleMimeTypes = (l1 ++ t :: l2)%list →
      Forall (λ x, isTypeSupported env x = false) l1 →
      isTypeSupported env t = true →
      constructorThrows env = None →
      recorders (startRecording env w)
        = (recorders w ++ [ {| rec_mimeType := t; rec_state := Inactive;
                               rec_timeslice := None; rec_stopping := false |} ])%list ∧
      timeouts (startRecording env w) = (timeouts w ++ [length (recorders w)])%list) ∧
  (Forall (λ x, isTypeSupported env x = false) possibleMimeTypes →
      startRecording env w
        = setError "Your browser does not support any common video recording codecs. Try updating your browser or using a different one." w ∧
      recorders (startRecording env w) = recorders w ∧
      timeouts (startRecording env w) = timeouts w ∧
      mediaRecorder (startRecording env w) = mediaRecorder w ∧
      recording (startRecording env w) = recording w).
Proof.
  cbv zeta. apply startRecording_codec_negotiation; reflexivity.
Defined.

Example negotiation_picks_generic_webm :
  recorders (startRecording {| isTypeSupported := λ t, String.eqb t "video/webm"
                                                    || String.eqb t "video/mp4; codecs=avc1";
                               constructorThrows := None |} (readyWorld page_js))
  = [ {| rec_mimeType := "video/webm"; rec_state := Inactive;
         rec_timeslice := None; rec_stopping := false |} ].
Proof. reflexivity. Qed.

Example negotiation_none_supported :
  let w := startRecording {| isTypeSupported := λ _, false; constructorThrows := None |}
             (readyWorld page_js) in
  recorders w = [] ∧ timeouts w = [] ∧ mediaRecorder w = None ∧
  error w = "Your browser does not support any common video recording codecs. Try updating your browser or using a different one.".
Proof. cbv zeta. repeat split; reflexivity. Qed.

(** C3 (what the code does): the Start button is disabled only once
    [recording] is set, 200 ms after the click.  Two clicks before the first
    timeout build two recorders and both are started; Stop then stops only
    the second, and the first stays in state recording with no handle left
    to stop it. *)
Theorem double_start_two_active_recorders (v : Variant) :
  let w := run v [ClickStart allSupported; ClickStart allSupported;
                  TimerFired 0%nat; TimerFired 1%nat] (readyWorld v) in
  let w' := run v [ClickStop; Stopped 1%nat 1000] w in
  activeRecorders w = [0%nat; 1%nat] ∧
  recording w = true ∧
  activeRecorders w' = [0%nat] ∧
  recording w' = false ∧
  mediaRecorder w' = Some 1%nat ∧
  step v w' ClickStop = w'.
Proof. destruct v; vm_compute; repeat split. Qed.

(** Once [recording] is set, a click on Start does nothing. *)
Lemma ClickStart_while_recording (v : Variant) (env : Env) (w : World) :
  recording w = true → step v w (ClickStart env) = w.
Proof. intros H. simpl. by rewrite H. Qed.

(** C4 (what the code does): [timeslice: 2000] is a property of the object
    given to the constructor, which does not read it, and [start] is called
    without an argument.  The started recorder has no timeslice, a periodic
    flush never reaches [ondataavailable], and the chunk buffer stays empty
    until the recorder is stopped. *)
Theorem start_without_timeslice (v : Variant) :
  let w := run v [ClickStart allSupported; TimerFired 0%nat] (readyWorld v) in
  recorders w = [ {| rec_mimeType := "video/webm; codecs=vp9,opus";
                     rec_state := Recording; rec_timeslice := None;
                     rec_stopping := false |} ] ∧
  (∀ size, step v w (TimesliceElapsed 0%nat size) = w) ∧
  recordedChunksRef w = [].
Proof. destruct v; vm_compute; repeat split. Qed.

(** [downloadVideo] of [part_000]: one save-as action under the generated
    name, then the URL is revoked and the reference cleared. *)
Lemma downloadVideo_part_000 (now : Z) (w : World) :
  truthy (videoUrl w) = true →
  saved (downloadVideo part_000 now w)
    = (saved w ++ [("face-tracking-video-" +:+ pretty now +:+ ".webm", videoUrl w)])%list ∧
  objectURLs (downloadVideo part_000 now w) !! videoUrl w = None ∧
  videoUrl (downloadVideo part_000 now w) = "".
Proof.
  intros H. unfold downloadVideo. rewrite H. cbv zeta. simpl.
  repeat split. apply lookup_delete_eq.
Qed.

(** After that the reference is empty and a second call does nothing. *)
Lemma downloadVideo_twice (v : Variant) (now now' : Z) (w : World) :
  downloadVideo v now' (downloadVideo v now w) = downloadVideo v now w.
Proof.
  unfold downloadVideo. destruct (truthy (videoUrl w)) eqn:Hu.
  - destruct v; reflexivity.
  - by rewrite Hu.
Qed.

(** [downloadVideo] of [page_js] never saves anything. *)
Lemma downloadVideo_page_js (now : Z) (w : World) :
  saved (downloadVideo page_js now w) = saved w.
Proof. unfold downloadVideo. by destruct (truthy (videoUrl w)). Qed.

(** C6 (what the code does in page.js): with an assembled artifact, a click
    on Download triggers no save-as action, and the object URL is revoked
    and the reference cleared all the same; the same trace in [part_000]
    saves the file under the generated name. *)
Theorem page_js_download_saves_nothing :
  let evs := [ClickStart allSupported; TimerFired 0%nat; ClickStop; Stopped 0%nat 1000] in
  let w := run page_js evs (readyWorld page_js) in
  let w' := step page_js w (ClickDownload 1700000000000) in
  let u := run part_000 evs (readyWorld part_000) in
  let u' := step part_000 u (ClickDownload 1700000000000) in
  videoUrl w = "blob:0" ∧
  objectURLs w !! "blob:0"
    = Some {| blob_parts := [ {| chunk_of := 0; chunk_size := 1000 |} ];
              blob_type := "video/webm" |} ∧
  saved w' = [] ∧ objectURLs w' = ∅ ∧ videoUrl w' = "" ∧
  saved u' = [("face-tracking-video-1700000000000.webm", "blob:0")] ∧
  objectURLs u' = ∅ ∧ videoUrl u' = "".
Proof. vm_compute. repeat split. Qed.

(** ** The chunk buffer across sessions *)

Lemma startRecording_buffer (env : Env) (w : World) :
  recordedChunksRef (startRecording env w) = []
  ∨ startRecording env w = setError (error (startRecording env w)) w.
Proof.
  unfold startRecording.
  destruct (negb (videoRef_current w) || negb (canvasRef_current w)
            || negb (isCameraReady w)); [by right|].
  cbv zeta. destruct (negb (truthy _)); [by right|].
  destruct (constructorThrows env); [by right|]. by left.
Qed.

Lemma onstop_buffer (recorder : nat) (w : World) :
  recordedChunksRef (onstop recorder w) = [].
Proof. reflexivity. Qed.

Lemma onstop_recorders (recorder : nat) (w : World) :
  recorders (onstop recorder w) = recorders w.
Proof.
  unfold onstop. cbv zeta.
  by destruct (0 <? length (recordedChunksRef w))%nat.
Qed.

Lemma timeslice_None_lookup (w : World) (i : nat) (r : MediaRecorder) :
  buffer_idle w → recorders w !! i = Some r → rec_timeslice r = None.
Proof. intros [_ H] Hi. by eapply (Forall_lookup_1 _ _ _ _ H Hi). Qed.

Lemma step_buffer_idle (v : Variant) (w : World) (ev : Event) :
  buffer_idle w → buffer_idle (step v w ev).
Proof.
  intros Hw. pose proof Hw as [Hb Hr]. destruct ev; simpl.
  - done.
  - done.
  - unfold startWebcam_resolved. by destruct (videoRef_current w).
  - done.
  - destruct (modelsLoaded w); [|done]. unfold handleVideoPlay.
    repeat match goal with |- context [if ?b then _ else _] => destruct b end; done.
  - destruct (0 <? detectionIntervals w)%nat; [|done]. unfold tick.
    by destruct (negb paused && negb ended).
  - destruct (0 <? inFlight w)%nat; [|done]. unfold tick_resume. cbv zeta.
    destruct (Tally.drawFaceExpressions_throws resizedDetections); [done|].
    destruct v; [done|].
    destruct (0 <? length resizedDetections)%nat; [|done].
    by destruct (Tally.updateCounts _ _).
  - by destruct v.
  - destruct (recording w || negb (modelsLoaded w) || negb (isCameraReady w)); [done|].
    unfold startRecording.
    destruct (negb (videoRef_current w) || negb (canvasRef_current w)
              || negb (isCameraReady w)); [done|].
    cbv zeta. destruct (negb (truthy _)); [done|].
    destruct (constructorThrows env); [done|].
    split; [done|]. simpl. apply Forall_app. split; [done|]. by constructor.
  - destruct (recording w) eqn:Hrec; [|done]. simpl. unfold stopRecording.
    rewrite Hrec. destruct (mediaRecorder w) as [i|]; [|done].
    destruct (recorders w !! i) as [r|] eqn:Hi; [|done].
    split; [done|]. simpl. apply Forall_insert; [done|].
    pose proof (timeslice_None_lookup w i r Hw Hi).
    unfold MediaRecorder_stop. by destruct (rec_state r).
  - destruct (truthy (videoUrl w)) eqn:Hu; [|done]. unfold downloadVideo.
    rewrite Hu. by destruct v.
  - destruct (bool_decide (recorder ∈ timeouts w)); [|done].
    unfold startRecording_timeout. simpl.
    destruct (recorders w !! recorder) as [r|] eqn:Hi; [|done].
    destruct (rec_state r) eqn:Hs; try done.
    split; [done|]. simpl. apply Forall_insert; [done|].
    unfold MediaRecorder_start. by rewrite Hs.
  - destruct (recorders w !! recorder) as [r|]; [|done].
    by destruct (bool_decide (rec_state r = Recording)).
  - destruct (recorders w !! recorder) as [r|] eqn:Hi; [|done].
    unfold flushes. rewrite (timeslice_None_lookup w recorder r Hw Hi).
    by destruct (rec_state r).
  - destruct (recorders w !! recorder) as [r|] eqn:Hi; [|done].
    destruct (rec_stopping r); [|done].
    split; [apply onstop_buffer|]. rewrite onstop_recorders.
    unfold ondataavailable. simpl.
    assert (Hins : Forall (λ r, rec_timeslice r = None)
                     (<[recorder := {| rec_mimeType := rec_mimeType r;
                                       rec_state := rec_state r;
                                       rec_timeslice := rec_timeslice r;
                                       rec_stopping := false |}]> (recorders w))).
    { apply Forall_insert; [done|]. simpl. by eapply timeslice_None_lookup. }
    by destruct (size >? 0).
Qed.

Lemma run_buffer_idle (v : Variant) (evs : list Event) :
  ∀ w, buffer_idle w → buffer_idle (run v evs w).
Proof.
  induction evs as [|ev evs IH]; intros w Hw; [done|].
  rewrite run_cons. apply IH. by apply step_buffer_idle.
Qed.

Lemma initialWorld_buffer_idle : buffer_idle initialWorld.
Proof. split; [done|constructor]. Qed.

(** No recorder the component ever holds was started with a timeslice, so
    none of them flushes periodically. *)
Lemma reachable_no_timeslice (v : Variant) (evs : list Event) (i : nat)
    (r : MediaRecorder) :
  recorders (run v evs initialWorld) !! i = Some r →
  rec_timeslice r = None ∧ flushes r = false.
Proof.
  intros Hi.
  pose proof (run_buffer_idle v evs _ initialWorld_buffer_idle) as Hw.
  pose proof (timeslice_None_lookup _ i r Hw Hi) as Ht.
  split; [done|]. unfold flushes. rewrite Ht. by destruct (rec_state r).
Qed.

(** What the final task of a stopped recorder assembles, from an idle
    buffer: nothing when the data is empty, else one blob made of that
    recorder's data alone. *)
Lemma Stopped_assembles (v : Variant) (w : World) (recorder : nat) (size : Z) :
  recordedChunksRef w = [] →
  objectURLs (step v w (Stopped recorder size)) = objectURLs w
  ∨ ∃ type,
      objectURLs (step v w (Stopped recorder size))
      = <["blob:" +:+ pretty (urlCounter w) :=
            {| blob_parts := [ {| chunk_of := recorder; chunk_size := size |} ];
               blob_type := type |}]> (objectURLs w).
Proof.
  intros Hb. simpl.
  destruct (recorders w !! recorder) as [r|]; [|by left].
  destruct (rec_stopping r); [|by left].
  unfold ondataavailable, onstop. cbv zeta.
  destruct (size >? 0); simpl; rewrite Hb; simpl; [|by left].
  right. eauto.
Qed.

(** C10: [startRecording] leaves the chunk buffer empty whenever it gets as
    far as constructing a recorder (otherwise it only sets an error);
    [onstop] leaves it empty on both of its branches.  Hence, after any
    sequence of events from the initial state, the buffer is empty: also
    when a timeout starts a recorder, and also after that start; and the
    final task of a stopped recorder assembles either nothing or a blob
    that consists of that recorder's own data, so no data of another
    session is in it. *)
Theorem chunk_buffer_cleared (v : Variant) (evs : list Event) (env : Env)
    (recorder : nat) (size : Z) (w0 : World) :
  let w := run v evs initialWorld in
  (recordedChunksRef (startRecording env w0) = []
   ∨ startRecording env w0 = setError (error (startRecording env w0)) w0) ∧
  recordedChunksRef (onstop recorder w0) = [] ∧
  recordedChunksRef w = [] ∧
  recordedChunksRef (step v w (TimerFired recorder)) = [] ∧
  (objectURLs (step v w (Stopped recorder size)) = objectURLs w
   ∨ ∃ type,
       objectURLs (step v w (Stopped recorder size))
       = <["blob:" +:+ pretty (urlCounter w) :=
             {| blob_parts := [ {| chunk_of := recorder; chunk_size := size |} ];
                blob_type := type |}]> (objectURLs w)).
Proof.
  cbv zeta.
  pose proof (run_buffer_idle v evs _ initialWorld_buffer_idle) as Hw.
  split; [apply startRecording_buffer|]. split; [apply onstop_buffer|].
  split; [apply Hw|].
  split; [apply (step_buffer_idle v _ (TimerFired recorder) Hw)|].
  apply Stopped_assembles, Hw.
Qed.

Lemma chunk_buffer_cleared_witness :
  let evs := [ModelsLoaded; WebcamRequested; WebcamGranted;
              ClickStart allSupported; TimerFired 0%nat; ClickStop] in
  let w := run page_js evs initialWorld in
  (recordedChunksRef (startRecording allSupported (readyWorld page_js)) = []
   ∨ startRecording allSupported (readyWorld page_js)
     = setError (error (startRecording allSupported (readyWorld page_js)))
         (readyWorld page_js)) ∧
  recordedChunksRef (onstop 0%nat (readyWorld page_js)) = [] ∧
  recordedChunksRef w = [] ∧
  recordedChunksRef (step page_js w (TimerFired 0%nat)) = [] ∧
  (objectURLs (step page_js w (Stopped 0%nat 1000)) = objectURLs w
   ∨ ∃ type,
       objectURLs (step page_js w (Stopped 0%nat 1000))
       = <["blob:" +:+ pretty (urlCounter w) :=
             {| blob_parts := [ {| chunk_of := 0; chunk_size := 1000 |} ];
                blob_type := type |}]> (objectURLs w)).
Proof.
  exact (chunk_buffer_cleared page_js
           [ModelsLoaded; WebcamRequested; WebcamGranted;
            ClickStart allSupported; TimerFired 0%nat; ClickStop]
           allSupported 0%nat 1000 (readyWorld page_js)).
Defined.

Example two_sessions_keep_their_data :
  let w := run page_js
             [ClickStart allSupported; TimerFired 0%nat; ClickStop;
              ClickStart allSupported; TimerFired 1%nat; ClickStop;
              Stopped 0%nat 700; Stopped 1%nat 900]
             (readyWorld page_js) in
  objectURLs w !! "blob:0"
    = Some {| blob_parts := [ {| chunk_of := 0; chunk_size := 700 |} ];
              blob_type := "video/webm" |} ∧
  objectURLs w !! "blob:1"
    = Some {| blob_parts := [ {| chunk_of := 1; chunk_size := 900 |} ];
              blob_type := "video/webm" |} ∧
  recordedChunksRef w = [].
Proof. vm_compute. repeat split. Qed.

(** * Further properties of the tally *)

Lemma increment_comm (k k' : string) (counts : gmap string jsnum) :
  Tally.increment k (Tally.increment k' counts)
  = Tally.increment k' (Tally.increment k counts).
Proof.
  destruct (decide (k = k')) as [->|Hne]; [done|].
  unfold Tally.increment.
  destruct (String.eqb k "__proto__"), (String.eqb k' "__proto__"); try done.
  rewrite !lookup_insert_ne by done. by apply insert_insert_ne.
Qed.

Lemma increments_cons (k : string) (ks : list string) (counts : gmap string jsnum) :
  Tally.increments (k :: ks) counts = Tally.increments ks (Tally.increment k counts).
Proof. reflexivity. Qed.

Lemma increments_increment (ks : list string) :
  ∀ (k : string) (counts : gmap string jsnum),
    Tally.increments ks (Tally.increment k counts)
    = Tally.increment k (Tally.increments ks counts).
Proof.
  induction ks as [|k' ks IH]; intros k counts; [done|].
  rewrite !increments_cons, <- IH. f_equal. apply increment_comm.
Qed.

(** X1: the tally after a batch of increments does not depend on the order
    in which the faces were visited. *)
Theorem increments_Permutation (ks ks' : list string) (counts : gmap string jsnum) :
  ks ≡ₚ ks' → Tally.increments ks counts = Tally.increments ks' counts.
Proof.
  intros Hp. revert counts.
  induction Hp as [|k ks ks' _ IH|k k' ks|ks1 ks2 ks3 _ IH1 _ IH2]; intros counts.
  - done.
  - rewrite !increments_cons. apply IH.
  - rewrite !increments_cons. f_equal. apply increment_comm.
  - by rewrite IH1.
Qed.

Lemma increments_Permutation_witness :
  Tally.increments ["happy"; "sad"; "happy"] Tally.zeroCounts
  = Tally.increments ["sad"; "happy"; "happy"] Tally.zeroCounts.
Proof.
  apply increments_Permutation. apply (bool_decide_unpack _). vm_compute. exact I.
Defined.

Lemma increments_dom (ks : list string) :
  ∀ counts : gmap string jsnum,
    "__proto__" ∉ ks →
    dom (Tally.increments ks counts) = dom counts ∪ list_to_set ks.
Proof.
  induction ks as [|k ks IH]; intros counts Hks.
  - simpl. by rewrite (right_id_L ∅ (∪)).
  - apply not_elem_of_cons in Hks as [Hk Hks].
    rewrite increments_cons, IH by done.
    rewrite increment_own by done.
    rewrite dom_insert_L, list_to_set_cons.
    rewrite (comm_L (∪) {[k]} (dom counts)). by rewrite (assoc_L (∪)).
Qed.

(** X2: a batch of increments that does not name [__proto__] never removes
    a label, adds exactly the incremented labels to the tally's keys, and
    leaves every label that is not incremented as it was. *)
Theorem increments_frame (ks : list string) (counts : gmap string jsnum) :
  "__proto__" ∉ ks →
  dom (Tally.increments ks counts) = dom counts ∪ list_to_set ks ∧
  ∀ l, l ∉ ks → Tally.increments ks counts !! l = counts !! l.
Proof.
  intros Hks. split; [by apply increments_dom|].
  intros l Hl. by apply increments_untouched.
Qed.

Lemma increments_frame_witness :
  dom (Tally.increments ["happy"; "sad"; "happy"] Tally.zeroCounts)
    = dom Tally.zeroCounts ∪ list_to_set ["happy"; "sad"; "happy"] ∧
  ∀ l, l ∉ ["happy"; "sad"; "happy"] →
       Tally.increments ["happy"; "sad"; "happy"] Tally.zeroCounts !! l
       = Tally.zeroCounts !! l.
Proof.
  apply increments_frame. apply (bool_decide_unpack _). vm_compute. exact I.
Defined.

(** X28: once [drawFaceExpressions] has returned, the tally updater cannot
    throw.  Every detection then carries an expressions object with the
    seven labels, so the updater returns a tally, with one increment per
    detection. *)
Theorem updater_total_after_draw (ds : list Tally.Detection) (counts : gmap string jsnum) :
  Tally.drawFaceExpressions_throws ds = false →
  Forall vocabulary_face ds ∧
  Tally.updateCounts ds counts = Some (Tally.increments (dominants ds) counts) ∧
  length (dominants ds) = length ds.
Proof.
  intros Hdraw. apply drawFaceExpressions_returns in Hdraw.
  destruct (faces_dominants ds Hdraw) as (Ht & _ & Hlen & _).
  split; [done|]. split; [|done]. by rewrite updateCounts_dominants, Ht.
Qed.

Lemma updater_total_after_draw_witness :
  Forall vocabulary_face
    [ {| Tally.expressions := Some (Tally.FaceExpressions 0 0 (1#4) 0 0 0 (3#4)) |} ] ∧
  Tally.updateCounts
    [ {| Tally.expressions := Some (Tally.FaceExpressions 0 0 (1#4) 0 0 0 (3#4)) |} ]
    Tally.zeroCounts
  = Some (Tally.increments
            (dominants
               [ {| Tally.expressions := Some (Tally.FaceExpressions 0 0 (1#4) 0 0 0 (3#4)) |} ])
            Tally.zeroCounts) ∧
  length (dominants
            [ {| Tally.expressions := Some (Tally.FaceExpressions 0 0 (1#4) 0 0 0 (3#4)) |} ])
  = length [ {| Tally.expressions := Some (Tally.FaceExpressions 0 0 (1#4) 0 0 0 (3#4)) |} ].
Proof. apply updater_total_after_draw. reflexivity. Defined.

Example drawFaceExpressions_rejects_bare_detection :
  Tally.drawFaceExpressions_throws [ {| Tally.expressions := None |} ] = true ∧
  expressionCounts
    (tick_resume part_000 [ {| Tally.expressions := None |} ] (readyWorld part_000))
  = expressionCounts (readyWorld part_000).
Proof. split; reflexivity. Qed.

(** * Further properties of the dominant expression *)

(** X4: the dominant expression is one of the object's own keys, and the
    selection fails exactly on an object without keys. *)
Theorem dominantExpression_key (e : Tally.Expressions) :
  match Tally.dominantExpression e with
  | Some k => k ∈ Tally.Object_keys e
  | None => e = []
  end.
Proof.
  destruct (Tally.dominantExpression e) as [k|] eqn:H.
  - by apply dominantExpression_Some_key.
  - by apply dominantExpression_None.
Qed.

(** X5: the tally updater as a whole.  It throws exactly when some face has
    an expressions object without keys; otherwise it returns the tally with
    one increment for the dominant label of each face that has an
    expressions object, and faces without one are skipped. *)
Theorem updateCounts_spec (ds : list Tally.Detection) (counts : gmap string jsnum) :
  Tally.updateCounts ds counts
  = if throws ds then None else Some (Tally.increments (dominants ds) counts).
Proof. apply updateCounts_dominants. Qed.

Example updateCounts_skips_and_counts :
  Tally.updateCounts
    [ {| Tally.expressions := None |};
      {| Tally.expressions := Some (Tally.FaceExpressions 0 0 (1#4) 0 0 0 (3#4)) |} ]
    Tally.zeroCounts
  = Some (Tally.increment "surprised" Tally.zeroCounts).
Proof. reflexivity. Qed.

Example updateCounts_throws :
  Tally.updateCounts
    [ {| Tally.expressions := Some (Tally.FaceExpressions 1 0 0 0 0 0 0) |};
      {| Tally.expressions := Some [] |} ]
    Tally.zeroCounts
  = None.
Proof. reflexivity. Qed.

(** * The tally across the event loop *)

Lemma tally_ok_counts (counts : gmap string jsnum) :
  tally_ok counts →
  ∃ c1 c2 c3 c4 c5 c6 c7,
    (counts !! "neutral" = Some (JNum c1) ∧ counts !! "happy" = Some (JNum c2) ∧
     counts !! "sad" = Some (JNum c3) ∧ counts !! "angry" = Some (JNum c4) ∧
     counts !! "fearful" = Some (JNum c5) ∧ counts !! "disgusted" = Some (JNum c6) ∧
     counts !! "surprised" = Some (JNum c7)) ∧
    (0 ≤ c1 ∧ 0 ≤ c2 ∧ 0 ≤ c3 ∧ 0 ≤ c4 ∧ 0 ≤ c5 ∧ 0 ≤ c6 ∧ 0 ≤ c7) ∧
    total counts = c1 + c2 + c3 + c4 + c5 + c6 + c7.
Proof.
  intros Hok.
  destruct (Hok "neutral" ltac:(apply (bool_decide_unpack _); vm_compute; exact I)) as (c1 & H1 & P1).
  destruct (Hok "happy" ltac:(apply (bool_decide_unpack _); vm_compute; exact I)) as (c2 & H2 & P2).
  destruct (Hok "sad" ltac:(apply (bool_decide_unpack _); vm_compute; exact I)) as (c3 & H3 & P3).
  destruct (Hok "angry" ltac:(apply (bool_decide_unpack _); vm_compute; exact I)) as (c4 & H4 & P4).
  destruct (Hok "fearful" ltac:(apply (bool_decide_unpack _); vm_compute; exact I)) as (c5 & H5 & P5).
  destruct (Hok "disgusted" ltac:(apply (bool_decide_unpack _); vm_compute; exact I)) as (c6 & H6 & P6).
  destruct (Hok "surprised" ltac:(apply (bool_decide_unpack _); vm_compute; exact I)) as (c7 & H7 & P7).
  exists c1, c2, c3, c4, c5, c6, c7. split; [done|]. split; [done|].
  unfold total, count_of, Tally.LABELS. simpl foldr.
  rewrite H1, H2, H3, H4, H5, H6, H7. lia.
Qed.

Lemma count_le_total (counts : gmap string jsnum) (l : string) (c : Z) :
  tally_ok counts → l ∈ Tally.LABELS → counts !! l = Some (JNum c) →
  c ≤ total counts.
Proof.
  intros Hok Hl Hc.
  destruct (tally_ok_counts counts Hok)
    as (c1 & c2 & c3 & c4 & c5 & c6 & c7 & (H1 & H2 & H3 & H4 & H5 & H6 & H7) & HP & Htot).
  unfold Tally.LABELS in Hl. rewrite !elem_of_cons, elem_of_nil in Hl.
  repeat destruct Hl as [->|Hl]; [..|done]; simplify_eq; lia.
Qed.

Lemma tally_ok_increment (k : string) (counts : gmap string jsnum) :
  tally_ok counts → tally_ok (Tally.increment k counts).
Proof.
  intros Hok l Hl. destruct (Hok l Hl) as (c & Hc & Hpos).
  destruct (increment_lookup_mono counts k l c Hc) as (c' & Hc' & Hle).
  exists c'. split; [done|lia].
Qed.

Lemma total_increment (k : string) (counts : gmap string jsnum) :
  tally_ok counts → k ∈ Tally.LABELS → total counts < MAX_COUNT →
  total (Tally.increment k counts) = total counts + 1.
Proof.
  intros Hok Hk Hmax.
  destruct (tally_ok_counts counts Hok)
    as (c1 & c2 & c3 & c4 & c5 & c6 & c7 & (H1 & H2 & H3 & H4 & H5 & H6 & H7) & HP & Htot).
  rewrite Htot in Hmax |- *.
  unfold Tally.LABELS in Hk. rewrite !elem_of_cons, elem_of_nil in Hk.
  unfold total, count_of, Tally.LABELS. simpl foldr.
  repeat destruct Hk as [->|Hk]; [..|done];
    rewrite increment_own by done;
    rewrite lookup_insert_eq, !lookup_insert_ne by done;
    rewrite ?H1, ?H2, ?H3, ?H4, ?H5, ?H6, ?H7; simpl;
    rewrite double_add1_exact by lia; lia.
Qed.

Lemma total_increments (ks : list string) :
  ∀ counts : gmap string jsnum,
    Forall (λ k, k ∈ Tally.LABELS) ks → tally_ok counts →
    total counts + Z.of_nat (length ks) ≤ MAX_COUNT →
    total (Tally.increments ks counts) = total counts + Z.of_nat (length ks) ∧
    tally_ok (Tally.increments ks counts).
Proof.
  induction ks as [|k ks IH]; intros counts Hks Hok Hmax.
  - split; [simpl; lia|done].
  - apply Forall_cons in Hks as [Hk Hks]. rewrite increments_cons.
    simpl length in Hmax |- *.
    assert (Hone : total (Tally.increment k counts) = total counts + 1)
      by (apply total_increment; [done..|lia]).
    destruct (IH (Tally.increment k counts) Hks (tally_ok_increment k counts Hok))
      as [Ht Hok']; [lia|].
    split; [|done]. rewrite Ht, Hone. lia.
Qed.

(** X6: when every detected face carries the seven vocabulary labels, the
    tally holds non-negative integers and the sum of the seven counts plus
    the number of faces does not exceed 2^53, a completed tick raises the
    sum of the seven displayed counts by exactly the number of detected
    faces, and the tally still holds non-negative integers. *)
Theorem tick_total (ds : list Tally.Detection) (w : World) :
  Forall vocabulary_face ds →
  tally_ok (expressionCounts w) →
  total (expressionCounts w) + Z.of_nat (length ds) ≤ MAX_COUNT →
  total (expressionCounts (tick_resume part_000 ds w))
    = total (expressionCounts w) + Z.of_nat (length ds) ∧
  tally_ok (expressionCounts (tick_resume part_000 ds w)).
Proof.
  intros Hds Hok Hmax. destruct (faces_dominants ds Hds) as (_ & _ & Hlen & Hks & _).
  rewrite tick_resume_dominants by done. rewrite <- Hlen in Hmax |- *.
  by apply total_increments.
Qed.

Lemma tick_total_witness :
  total (expressionCounts
           (tick_resume part_000
              [ {| Tally.expressions := Some (Tally.FaceExpressions (1#2) (1#2) 0 0 0 0 0) |};
                {| Tally.expressions := Some (Tally.FaceExpressions 0 0 (1#4) 0 0 0 (3#4)) |} ]
              (readyWorld part_000)))
    = total (expressionCounts (readyWorld part_000))
      + Z.of_nat (length
          [ {| Tally.expressions := Some (Tally.FaceExpressions (1#2) (1#2) 0 0 0 0 0) |};
            {| Tally.expressions := Some (Tally.FaceExpressions 0 0 (1#4) 0 0 0 (3#4)) |} ]) ∧
  tally_ok (expressionCounts
           (tick_resume part_000
              [ {| Tally.expressions := Some (Tally.FaceExpressions (1#2) (1#2) 0 0 0 0 0) |};
                {| Tally.expressions := Some (Tally.FaceExpressions 0 0 (1#4) 0 0 0 (3#4)) |} ]
              (readyWorld part_000))).
Proof.
  apply (tick_total
           [ {| Tally.expressions := Some (Tally.FaceExpressions (1#2) (1#2) 0 0 0 0 0) |};
             {| Tally.expressions := Some (Tally.FaceExpressions 0 0 (1#4) 0 0 0 (3#4)) |} ]
           (readyWorld part_000)).
  - repeat constructor; eexists; (split; reflexivity).
  - intros l Hl. exists 0. split; [|lia].
    change (expressionCounts (readyWorld part_000)) with Tally.zeroCounts.
    by apply zeroCounts_lookup.
  - vm_compute. discriminate.
Defined.

(** Case analysis on every test of a handler's body. *)
Ltac break_tests :=
  repeat match goal with
         | |- context [if ?b then _ else _] => destruct b
         | |- context [match ?x with _ => _ end] => destruct x
         end.

Lemma step_expressionCounts_cases (v : Variant) (w : World) (ev : Event) :
  expressionCounts (step v w ev) = expressionCounts w
  ∨ (ev = ClickReset ∧ expressionCounts (step v w ev) = Tally.zeroCounts)
  ∨ (∃ ds, ev = Detected ds ∧
           expressionCounts (step v w ev)
           = Tally.increments (dominants ds) (expressionCounts w)).
Proof.
  destruct ev; simpl.
  - by left.
  - by left.
  - left. unfold startWebcam_resolved. by break_tests.
  - by left.
  - left. unfold handleVideoPlay. by break_tests.
  - left. unfold tick. by break_tests.
  - destruct (0 <? inFlight w)%nat; [|by left].
    unfold tick_resume. cbv zeta.
    destruct (Tally.drawFaceExpressions_throws resizedDetections); [by left|].
    destruct v; [by left|].
    change (expressionCounts (set_loop _ _ _ w)) with (expressionCounts w).
    destruct (0 <? length resizedDetections)%nat; [|by left].
    rewrite updateCounts_dominants. destruct (throws resizedDetections); [by left|].
    right. right. by exists resizedDetections.
  - destruct v; [by left|]. right. left. done.
  - left. unfold startRecording. by break_tests.
  - left. unfold stopRecording. by break_tests.
  - left. unfold downloadVideo. by break_tests.
  - left. unfold startRecording_timeout. simpl. by break_tests.
  - left. by break_tests.
  - left. unfold ondataavailable. by break_tests.
  - left. unfold onstop, ondataavailable. cbv zeta.
    destruct (recorders w !! recorder) as [r|]; [|done].
    destruct (rec_stopping r); [|done].
    destruct (size >? 0); simpl; by destruct (0 <? length _)%nat.
Qed.

(** X7: only two things change the tally: the result of a detection call,
    which applies one increment per face with expressions, and the reset
    button of the statistics variant, which zeroes it.  Every other event
    leaves it as it was. *)
Theorem tally_changes_only_by_detection_or_reset (v : Variant) (w : World) (ev : Event) :
  expressionCounts (step v w ev) = expressionCounts w
  ∨ (ev = ClickReset ∧ expressionCounts (step v w ev) = Tally.zeroCounts)
  ∨ (∃ ds, ev = Detected ds ∧
           expressionCounts (step v w ev)
           = Tally.increments (dominants ds) (expressionCounts w)).
Proof. apply step_expressionCounts_cases. Qed.

(** X8: counts only grow except on reset.  For every event other than a
    click on Reset, a label that holds an integer count still holds one
    afterwards, and it is not smaller. *)
Theorem tally_monotone (v : Variant) (w : World) (ev : Event) (l : string) (c : Z) :
  ev ≠ ClickReset →
  expressionCounts w !! l = Some (JNum c) →
  ∃ c', expressionCounts (step v w ev) !! l = Some (JNum c') ∧ c ≤ c'.
Proof.
  intros Hev Hc.
  destruct (step_expressionCounts_cases v w ev) as [H|[[H _]|(ds & _ & H)]].
  - rewrite H. exists c. split; [done|lia].
  - done.
  - rewrite H. by apply increments_lookup_mono.
Qed.

Lemma tally_monotone_witness :
  ∃ c', expressionCounts
          (step part_000
             (run part_000 [Play 640 480; Tick false false] (readyWorld part_000))
             (Detected [ {| Tally.expressions :=
                              Some (Tally.FaceExpressions 0 1 0 0 0 0 0) |} ]))
          !! "happy" = Some (JNum c') ∧ 0 ≤ c'.
Proof.
  apply (tally_monotone part_000
           (run part_000 [Play 640 480; Tick false false] (readyWorld part_000))).
  - discriminate.
  - reflexivity.
Defined.

Lemma run_snoc (v : Variant) (evs : list Event) (ev : Event) (w : World) :
  run v (evs ++ [ev]) w = step v (run v evs w) ev.
Proof. unfold run. by rewrite fold_left_app. Qed.

(** X9: from the initial state, whatever happens, each of the seven labels
    holds a non-negative integer count: the statistics box never shows NaN
    or a negative number for them. *)
Theorem tally_nonnegative (v : Variant) (evs : list Event) (l : string) :
  l ∈ Tally.LABELS →
  ∃ c, expressionCounts (run v evs initialWorld) !! l = Some (JNum c) ∧ 0 ≤ c.
Proof.
  intros Hl. induction evs as [|ev evs IH] using rev_ind.
  - exists 0. split; [by apply zeroCounts_lookup|lia].
  - rewrite run_snoc. destruct IH as (c & Hc & Hpos).
    destruct (step_expressionCounts_cases v (run v evs initialWorld) ev)
      as [H|[[_ H]|(ds & _ & H)]]; rewrite H.
    + by exists c.
    + exists 0. split; [by apply zeroCounts_lookup|lia].
    + destruct (increments_lookup_mono (dominants ds) (expressionCounts (run v evs initialWorld))
                  l c Hc) as (c' & Hc' & Hle).
      exists c'. split; [done|lia].
Qed.

Lemma tally_nonnegative_witness :
  ∃ c, expressionCounts
         (run part_000
            [ModelsLoaded; WebcamRequested; WebcamGranted; Play 640 480;
             Tick false false;
             Detected [ {| Tally.expressions :=
                             Some (Tally.FaceExpressions 0 1 0 0 0 0 0) |} ]]
            initialWorld) !! "happy" = Some (JNum c) ∧ 0 ≤ c.
Proof.
  apply tally_nonnegative. apply (bool_decide_unpack _). vm_compute. exact I.
Defined.

(** * Camera state and what is rendered *)

Lemma step_camera_cases (v : Variant) (w : World) (ev : Event) :
  (isCameraReady (step v w ev) = isCameraReady w ∧
   cameraPermissionStatus (step v w ev) = cameraPermissionStatus w)
  ∨ (isCameraReady (step v w ev) = true ∧
     cameraPermissionStatus (step v w ev) = "granted")
  ∨ (isCameraReady (step v w ev) = false ∧
     cameraPermissionStatus (step v w ev) = "denied").
Proof.
  destruct ev; simpl.
  - by left.
  - by left.
  - unfold startWebcam_resolved. destruct (videoRef_current w); [right; by left|by left].
  - right. by right.
  - left. unfold handleVideoPlay. by break_tests.
  - left. unfold tick. by break_tests.
  - left. unfold tick_resume. by break_tests.
  - left. by break_tests.
  - left. unfold startRecording. by break_tests.
  - left. unfold stopRecording. by break_tests.
  - left. unfold downloadVideo. by break_tests.
  - left. unfold startRecording_timeout. simpl. by break_tests.
  - left. by break_tests.
  - left. unfold ondataavailable. by break_tests.
  - left. unfold onstop, ondataavailable. cbv zeta.
    destruct (recorders w !! recorder) as [r|]; [|done].
    destruct (rec_stopping r); [|done].
    destruct (size >? 0); simpl; by destruct (0 <? length _)%nat.
Qed.

Lemma camera_status_reachable (v : Variant) (evs : list Event) :
  (isCameraReady (run v evs initialWorld) = true ∧
   cameraPermissionStatus (run v evs initialWorld) = "granted")
  ∨ (isCameraReady (run v evs initialWorld) = false ∧
     (cameraPermissionStatus (run v evs initialWorld) = "unknown"
      ∨ cameraPermissionStatus (run v evs initialWorld) = "denied")).
Proof.
  induction evs as [|ev evs IH] using rev_ind.
  - right. split; [done|by left].
  - rewrite run_snoc.
    destruct (step_camera_cases v (run v evs initialWorld) ev)
      as [[H1 H2]|[[H1 H2]|[H1 H2]]]; rewrite H1, H2.
    + done.
    + by left.
    + right. split; [done|by right].
Qed.

(** X10: in every state the component can reach, the camera is ready exactly
    when the permission status is granted, and the status is never prompt.
    So the Request Camera Access button is shown exactly while the camera is
    not ready, exactly one of the initializing and denied overlays is shown
    then, and the waiting overlay is never rendered. *)
Theorem camera_rendering (v : Variant) (evs : list Event) :
  let w := run v evs initialWorld in
  overlay_waiting w = false ∧
  requestAccessButton_shown w = negb (isCameraReady w) ∧
  xorb (overlay_initializing w) (overlay_denied w) = negb (isCameraReady w) ∧
  (isCameraReady w = true ↔ cameraPermissionStatus w = "granted").
Proof.
  cbv zeta.
  unfold overlay_waiting, requestAccessButton_shown, overlay_initializing, overlay_denied.
  destruct (camera_status_reachable v evs) as [[H1 H2]|[H1 [H2|H2]]];
    rewrite H1, H2; repeat split; try done.
Qed.

(** X11: after any rejected camera request, the denied overlay and the
    Request Camera Access button are shown, a click on Start Recording does
    nothing, and [startRecording] itself, if called, only reports that the
    camera is not ready. *)
Theorem rejected_camera_blocks_recording (v : Variant) (err : DOMException)
    (env : Env) (w : World) :
  let w' := startWebcam_rejected err w in
  overlay_denied w' = true ∧
  requestAccessButton_shown w' = true ∧
  startButton_disabled w' = true ∧
  step v w' (ClickStart env) = w' ∧
  startRecording env w'
    = setError "Camera not ready or models not loaded. Please ensure camera access and models are loaded." w'.
Proof.
  cbv zeta. repeat split.
  - unfold startButton_disabled. simpl. by rewrite !orb_true_r.
  - simpl. by rewrite !orb_true_r.
  - unfold startRecording. simpl. by rewrite !orb_true_r.
Qed.

(** * Recorders and their start timers *)

Lemma step_recorder_frame (v : Variant) (w : World) (ev : Event) :
  recorder_event ev = false →
  recorders (step v w ev) = recorders w ∧
  timeouts (step v w ev) = timeouts w ∧
  mediaRecorder (step v w ev) = mediaRecorder w ∧
  recording (step v w ev) = recording w.
Proof.
  destruct ev; simpl; try done; intros _.
  - unfold startWebcam_resolved. by break_tests.
  - unfold handleVideoPlay. by break_tests.
  - unfold tick. by break_tests.
  - unfold tick_resume. by break_tests.
  - by break_tests.
  - unfold downloadVideo. by break_tests.
  - by break_tests.
  - unfold ondataavailable. by break_tests.
Qed.

Lemma onstop_fields (recorder : nat) (w : World) :
  timeouts (onstop recorder w) = timeouts w ∧
  mediaRecorder (onstop recorder w) = mediaRecorder w ∧
  recording (onstop recorder w) = recording w.
Proof.
  unfold onstop. cbv zeta.
  by destruct (0 <? length (recordedChunksRef w))%nat.
Qed.

Lemma remove_first_elem_of (j i : nat) (l : list nat) :
  NoDup l → i ∈ remove_first j l ↔ i ∈ l ∧ i ≠ j.
Proof.
  induction l as [|a l IH]; simpl; intros Hnd.
  - split; [by intros ?%elem_of_nil|by intros [?%elem_of_nil _]].
  - apply NoDup_cons in Hnd as [Ha Hnd].
    destruct (Nat.eqb_spec j a) as [->|Hne].
    + rewrite elem_of_cons. split.
      * intros Hi. split; [by right|]. by intros ->.
      * by intros [[->|Hi] Hne].
    + rewrite !elem_of_cons, IH by done. split.
      * intros [->|[Hi Hij]]; [split; [by left|done]|split; [by right|done]].
      * intros [[->|Hi] Hij]; [by left|by right].
Qed.

Lemma remove_first_NoDup (j : nat) (l : list nat) :
  NoDup l → NoDup (remove_first j l).
Proof.
  induction l as [|a l IH]; simpl; intros Hnd; [done|].
  pose proof Hnd as [Ha Hl]%NoDup_cons.
  destruct (Nat.eqb j a); [done|].
  apply NoDup_cons. split; [|by apply IH].
  rewrite remove_first_elem_of by done. by intros [? _].
Qed.

Lemma step_timers_fresh (v : Variant) (w : World) (ev : Event) :
  timers_fresh w → timers_fresh (step v w ev).
Proof.
  intros Hw. destruct (recorder_event ev) eqn:Hev.
  2: { destruct (step_recorder_frame v w ev Hev) as (H1 & H2 & _).
       unfold timers_fresh. by rewrite H1, H2. }
  pose proof Hw as [Hnd Hfresh]. destruct ev; try done; simpl.
  - destruct (recording w || negb (modelsLoaded w) || negb (isCameraReady w)); [done|].
    unfold startRecording.
    destruct (negb (videoRef_current w) || negb (canvasRef_current w)
              || negb (isCameraReady w)); [done|].
    cbv zeta. destruct (negb (truthy _)); [done|].
    destruct (constructorThrows env); [done|].
    split; simpl.
    + apply NoDup_app. split; [done|]. split; [|apply NoDup_singleton].
      intros i Hi ->%list_elem_of_singleton.
      destruct (Hfresh _ Hi) as (r & Hr%lookup_lt_Some & _). lia.
    + intros i [Hi| ->%list_elem_of_singleton]%elem_of_app.
      * destruct (Hfresh i Hi) as (r & Hr & ?). exists r.
        split; [by apply lookup_app_l_Some|done].
      * eexists. split; [by apply list_lookup_middle|done].
  - destruct (negb (recording w)); [done|]. unfold stopRecording.
    destruct (mediaRecorder w) as [j|]; [|done].
    destruct (recording w); [|done].
    destruct (recorders w !! j) as [rj|] eqn:Hj; [|done].
    split; [done|]. simpl. intros i Hi.
    destruct (Hfresh i Hi) as (r & Hr & Hs & Hp).
    destruct (decide (j = i)) as [->|Hne].
    + assert (rj = r) as -> by congruence.
      exists r. split; [|done].
      unfold MediaRecorder_stop. rewrite Hs.
      apply list_lookup_insert_eq. by eapply lookup_lt_Some.
    + exists r. split; [|done]. by rewrite list_lookup_insert_ne.
  - destruct (bool_decide (recorder ∈ timeouts w)) eqn:Hin; [|done].
    apply bool_decide_eq_true in Hin.
    destruct (Hfresh recorder Hin) as (r & Hr & Hs & Hp).
    unfold startRecording_timeout. simpl. rewrite Hr, Hs.
    split; simpl; [by apply remove_first_NoDup|].
    intros i [Hi Hne]%remove_first_elem_of; [|done].
    destruct (Hfresh i Hi) as (ri & Hri & ?). exists ri.
    split; [|done]. by rewrite list_lookup_insert_ne.
  - destruct (recorders w !! recorder) as [r|] eqn:Hr; [|done].
    destruct (rec_stopping r) eqn:Hp; [|done].
    unfold timers_fresh.
    destruct (onstop_fields recorder
                (ondataavailable recorder size
                   (set_recorders
                      (<[recorder := {| rec_mimeType := rec_mimeType r;
                                        rec_state := rec_state r;
                                        rec_timeslice := rec_timeslice r;
                                        rec_stopping := false |}]> (recorders w)) w)))
      as (-> & _ & _).
    rewrite onstop_recorders. unfold ondataavailable.
    destruct (size >? 0); simpl; (split; [done|]); intros i Hi;
      destruct (Hfresh i Hi) as (ri & Hri & Hsi & Hpi); exists ri;
      (split; [|done]); rewrite list_lookup_insert_ne; [done| |done|];
      intros ->; congruence.
Qed.

Lemma run_timers_fresh (v : Variant) (evs : list Event) :
  ∀ w, timers_fresh w → timers_fresh (run v evs w).
Proof.
  induction evs as [|ev evs IH]; intros w Hw; [done|].
  rewrite run_cons. apply IH. by apply step_timers_fresh.
Qed.

Lemma initialWorld_timers_fresh : timers_fresh initialWorld.
Proof. split; [constructor|]. by intros i ?%elem_of_nil. Qed.

(** X12: in every reachable state the pending start timers belong to
    distinct recorders that were never started, so a timer that fires always
    finds its recorder inactive: the [recorder.state === 'inactive'] test
    never fails, the recorder starts recording, and it becomes the one the
    Stop button acts on. *)
Theorem pending_timer_starts_its_recorder (v : Variant) (evs : list Event) (i : nat) :
  i ∈ timeouts (run v evs initialWorld) →
  ∃ r, recorders (run v evs initialWorld) !! i = Some r ∧
       rec_state r = Inactive ∧
       recorders (step v (run v evs initialWorld) (TimerFired i)) !! i
         = Some (MediaRecorder_start None r) ∧
       rec_state (MediaRecorder_start None r) = Recording ∧
       mediaRecorder (step v (run v evs initialWorld) (TimerFired i)) = Some i ∧
       recording (step v (run v evs initialWorld) (TimerFired i)) = true ∧
       i ∉ timeouts (step v (run v evs initialWorld) (TimerFired i)).
Proof.
  intros Hi.
  destruct (run_timers_fresh v evs _ initialWorld_timers_fresh) as [Hnd Hfresh].
  destruct (Hfresh i Hi) as (r & Hr & Hs & Hp).
  exists r. split; [done|]. split; [done|].
  simpl. rewrite (bool_decide_eq_true_2 _ Hi).
  unfold startRecording_timeout. simpl. rewrite Hr, Hs. simpl.
  repeat split.
  - apply list_lookup_insert_eq. by eapply lookup_lt_Some.
  - unfold MediaRecorder_start. by rewrite Hs.
  - rewrite remove_first_elem_of by done. by intros [_ ?].
Qed.

Lemma pending_timer_starts_its_recorder_witness :
  ∃ r, recorders (run page_js [ModelsLoaded; WebcamRequested; WebcamGranted;
                                ClickStart allSupported] initialWorld) !! 0%nat = Some r ∧
       rec_state r = Inactive ∧
       recorders (step page_js
                    (run page_js [ModelsLoaded; WebcamRequested; WebcamGranted;
                                  ClickStart allSupported] initialWorld)
                    (TimerFired 0%nat)) !! 0%nat
         = Some (MediaRecorder_start None r) ∧
       rec_state (MediaRecorder_start None r) = Recording ∧
       mediaRecorder (step page_js
                    (run page_js [ModelsLoaded; WebcamRequested; WebcamGranted;
                                  ClickStart allSupported] initialWorld)
                    (TimerFired 0%nat)) = Some 0%nat ∧
       recording (step page_js
                    (run page_js [ModelsLoaded; WebcamRequested; WebcamGranted;
                                  ClickStart allSupported] initialWorld)
                    (TimerFired 0%nat)) = true ∧
       0%nat ∉ timeouts (step page_js
                    (run page_js [ModelsLoaded; WebcamRequested; WebcamGranted;
                                  ClickStart allSupported] initialWorld)
                    (TimerFired 0%nat)).
Proof.
  apply (pending_timer_starts_its_recorder page_js
           [ModelsLoaded; WebcamRequested; WebcamGranted; ClickStart allSupported] 0%nat).
  apply (bool_decide_unpack _). vm_compute. exact I.
Defined.

Lemma startRecording_flags (env : Env) (w : World) :
  recording (startRecording env w) = recording w ∧
  mediaRecorder (startRecording env w) = mediaRecorder w.
Proof. unfold startRecording. by break_tests. Qed.

Lemma step_recording_sound (v : Variant) (w : World) (ev : Event) :
  recording_sound w → recording_sound (step v w ev).
Proof.
  intros Hw. destruct (recorder_event ev) eqn:Hev.
  2: { destruct (step_recorder_frame v w ev Hev) as (H1 & _ & H3 & H4).
       unfold recording_sound. by rewrite H1, H3, H4. }
  destruct ev; try done; simpl.
  - destruct (recording w) eqn:Hrec; [done|]. simpl.
    destruct (negb (modelsLoaded w) || negb (isCameraReady w)); [done|].
    intros H. destruct (startRecording_flags env w) as [Hflag _]. congruence.
  - destruct (recording w) eqn:Hrec; [|done]. simpl. unfold stopRecording.
    rewrite Hrec. destruct (mediaRecorder w) as [j|]; [|done].
    destruct (recorders w !! j) as [rj|]; [|done]. by intros H.
  - destruct (bool_decide (recorder ∈ timeouts w)); [|done].
    unfold startRecording_timeout. simpl.
    destruct (recorders w !! recorder) as [r|] eqn:Hr; [|done].
    destruct (rec_state r) eqn:Hs; try done.
    intros _. exists recorder, (MediaRecorder_start None r).
    split; [done|]. simpl. split.
    + apply list_lookup_insert_eq. by eapply lookup_lt_Some.
    + unfold MediaRecorder_start. by rewrite Hs.
  - destruct (recorders w !! recorder) as [r|] eqn:Hr; [|done].
    destruct (rec_stopping r); [|done].
    unfold recording_sound. rewrite onstop_recorders.
    destruct (onstop_fields recorder
                (ondataavailable recorder size
                   (set_recorders
                      (<[recorder := {| rec_mimeType := rec_mimeType r;
                                        rec_state := rec_state r;
                                        rec_timeslice := rec_timeslice r;
                                        rec_stopping := false |}]> (recorders w)) w)))
      as (_ & -> & ->).
    unfold ondataavailable.
    destruct (size >? 0); simpl; intros Hrec;
      destruct (Hw Hrec) as (i & ri & Hi & Hri & Hsi); exists i;
      (destruct (decide (recorder = i)) as [->|Hne];
       [ eexists; split; [done|]; split;
         [apply list_lookup_insert_eq; by eapply lookup_lt_Some|];
         simpl; congruence
       | exists ri; split; [done|]; split; [by rewrite list_lookup_insert_ne|done] ]).
Qed.

Lemma run_recording_sound (v : Variant) (evs : list Event) :
  ∀ w, recording_sound w → recording_sound (run v evs w).
Proof.
  induction evs as [|ev evs IH]; intros w Hw; [done|].
  rewrite run_cons. apply IH. by apply step_recording_sound.
Qed.

(** X13: whenever the component shows that it is recording (so that the Stop
    button is enabled), [mediaRecorder] holds a recorder that is in state
    recording; a click on Stop therefore always stops a running recorder and
    queues its final data. *)
Theorem recording_flag_has_running_recorder (v : Variant) (evs : list Event) :
  recording (run v evs initialWorld) = true →
  ∃ i r,
    mediaRecorder (run v evs initialWorld) = Some i ∧
    recorders (run v evs initialWorld) !! i = Some r ∧
    rec_state r = Recording ∧
    recorders (step v (run v evs initialWorld) ClickStop) !! i
      = Some {| rec_mimeType := rec_mimeType r; rec_state := Inactive;
                rec_timeslice := rec_timeslice r; rec_stopping := true |} ∧
    recording (step v (run v evs initialWorld) ClickStop) = false.
Proof.
  intros Hrec.
  assert (Hs : recording_sound initialWorld) by (by intros ?).
  destruct (run_recording_sound v evs _ Hs Hrec) as (i & r & Hi & Hr & Hst).
  exists i, r. repeat split; try done.
  - simpl. rewrite Hrec. simpl. unfold stopRecording. rewrite Hi, Hrec, Hr. simpl.
    unfold MediaRecorder_stop. rewrite Hst.
    apply list_lookup_insert_eq. by eapply lookup_lt_Some.
  - simpl. rewrite Hrec. simpl. unfold stopRecording. by rewrite Hi, Hrec, Hr.
Qed.

Lemma recording_flag_has_running_recorder_witness :
  ∃ i r,
    mediaRecorder (run page_js [ModelsLoaded; WebcamRequested; WebcamGranted;
                                ClickStart allSupported; TimerFired 0%nat]
                     initialWorld) = Some i ∧
    recorders (run page_js [ModelsLoaded; WebcamRequested; WebcamGranted;
                            ClickStart allSupported; TimerFired 0%nat]
                 initialWorld) !! i = Some r ∧
    rec_state r = Recording ∧
    recorders (step page_js
                 (run page_js [ModelsLoaded; WebcamRequested; WebcamGranted;
                               ClickStart allSupported; TimerFired 0%nat]
                    initialWorld) ClickStop) !! i
      = Some {| rec_mimeType := rec_mimeType r; rec_state := Inactive;
                rec_timeslice := rec_timeslice r; rec_stopping := true |} ∧
    recording (step page_js
                 (run page_js [ModelsLoaded; WebcamRequested; WebcamGranted;
                               ClickStart allSupported; TimerFired 0%nat]
                    initialWorld) ClickStop) = false.
Proof.
  apply (recording_flag_has_running_recorder page_js
           [ModelsLoaded; WebcamRequested; WebcamGranted;
            ClickStart allSupported; TimerFired 0%nat]).
  vm_compute. reflexivity.
Defined.

Lemma remove_first_subset (j i : nat) (l : list nat) :
  i ∈ remove_first j l → i ∈ l.
Proof.
  induction l as [|a l IH]; simpl; [done|].
  destruct (Nat.eqb j a); [by right|].
  intros [->|Hi]%elem_of_cons; [by left|right; by apply IH].
Qed.

Lemma step_spent_recorder (v : Variant) (w : World) (ev : Event) (i : nat)
    (r : MediaRecorder) :
  recorders w !! i = Some r → rec_state r = Inactive → i ∉ timeouts w →
  ∃ r', recorders (step v w ev) !! i = Some r' ∧ rec_state r' = Inactive ∧
        i ∉ timeouts (step v w ev).
Proof.
  intros Hr Hs Hi. destruct (recorder_event ev) eqn:Hev.
  2: { destruct (step_recorder_frame v w ev Hev) as (H1 & H2 & _).
       rewrite H1, H2. by exists r. }
  destruct ev; try done; simpl.
  - destruct (recording w || negb (modelsLoaded w) || negb (isCameraReady w));
      [by exists r|].
    unfold startRecording.
    destruct (negb (videoRef_current w) || negb (canvasRef_current w)
              || negb (isCameraReady w)); [by exists r|].
    cbv zeta. destruct (negb (truthy _)); [by exists r|].
    destruct (constructorThrows env); [by exists r|].
    exists r. simpl. split; [by apply lookup_app_l_Some|]. split; [done|].
    intros [?| ->%list_elem_of_singleton]%elem_of_app; [done|].
    apply lookup_lt_Some in Hr. lia.
  - destruct (negb (recording w)); [by exists r|]. unfold stopRecording.
    destruct (mediaRecorder w) as [j|]; [|by exists r].
    destruct (recording w); [|by exists r].
    destruct (recorders w !! j) as [rj|] eqn:Hj; [|by exists r].
    simpl. destruct (decide (j = i)) as [->|Hne].
    + assert (rj = r) as -> by congruence. exists r.
      unfold MediaRecorder_stop. rewrite Hs.
      split; [|done]. apply list_lookup_insert_eq. by eapply lookup_lt_Some.
    + exists r. by rewrite list_lookup_insert_ne.
  - destruct (bool_decide (recorder ∈ timeouts w)) eqn:Hin; [|by exists r].
    apply bool_decide_eq_true in Hin.
    assert (Hne : recorder ≠ i) by (by intros ->).
    assert (Hi' : i ∉ remove_first recorder (timeouts w)).
    { intros H. by apply remove_first_subset in H. }
    unfold startRecording_timeout. simpl.
    destruct (recorders w !! recorder) as [rj|]; [|by exists r].
    destruct (rec_state rj); try by exists r.
    exists r. simpl. by rewrite list_lookup_insert_ne.
  - destruct (recorders w !! recorder) as [rj|] eqn:Hj; [|by exists r].
    destruct (rec_stopping rj); [|by exists r].
    rewrite onstop_recorders.
    destruct (onstop_fields recorder
                (ondataavailable recorder size
                   (set_recorders
                      (<[recorder := {| rec_mimeType := rec_mimeType rj;
                                        rec_state := rec_state rj;
                                        rec_timeslice := rec_timeslice rj;
                                        rec_stopping := false |}]> (recorders w)) w)))
      as (-> & _ & _).
    unfold ondataavailable.
    destruct (size >? 0); simpl;
      (destruct (decide (recorder = i)) as [->|Hne];
       [ eexists; split; [apply list_lookup_insert_eq; by eapply lookup_lt_Some|];
         split; [simpl; congruence|done]
       | exists r; by rewrite list_lookup_insert_ne ]).
Qed.

(** X14: a recorder that is inactive and has no start timer pending, which
    is the state of every recorder after it was stopped, stays inactive
    whatever happens afterwards: no recorder is ever started a second
    time. *)
Theorem stopped_recorder_never_restarts (v : Variant) (evs : list Event) :
  ∀ (w : World) (i : nat) (r : MediaRecorder),
    recorders w !! i = Some r → rec_state r = Inactive → i ∉ timeouts w →
    ∃ r', recorders (run v evs w) !! i = Some r' ∧ rec_state r' = Inactive.
Proof.
  induction evs as [|ev evs IH]; intros w i r Hr Hs Hi.
  - by exists r.
  - rewrite run_cons.
    destruct (step_spent_recorder v w ev i r Hr Hs Hi) as (r' & Hr' & Hs' & Hi').
    by apply (IH _ i r').
Qed.

Lemma stopped_recorder_never_restarts_witness :
  ∃ r', recorders
          (run page_js [ClickStart allSupported; TimerFired 1%nat; TimerFired 0%nat]
             (run page_js [ClickStart allSupported; TimerFired 0%nat; ClickStop]
                (readyWorld page_js))) !! 0%nat = Some r' ∧
        rec_state r' = Inactive.
Proof.
  apply (stopped_recorder_never_restarts page_js
           [ClickStart allSupported; TimerFired 1%nat; TimerFired 0%nat]
           (run page_js [ClickStart allSupported; TimerFired 0%nat; ClickStop]
              (readyWorld page_js))
           0%nat
           {| rec_mimeType := "video/webm; codecs=vp9,opus"; rec_state := Inactive;
              rec_timeslice := None; rec_stopping := true |}).
  - vm_compute. reflexivity.
  - reflexivity.
  - vm_compute. by intros ?%elem_of_nil.
Defined.

(** * Artifacts and object URLs *)

Lemma step_artifact_frame (v : Variant) (w : World) (ev : Event) :
  artifact_event ev = false →
  videoUrl (step v w ev) = videoUrl w ∧
  objectURLs (step v w ev) = objectURLs w ∧
  urlCounter (step v w ev) = urlCounter w ∧
  recorders (step v w ev) = recorders w ∧
  recordedChunksRef (step v w ev) = recordedChunksRef w.
Proof.
  destruct ev; simpl; try done; intros _.
  - unfold startWebcam_resolved. by break_tests.
  - unfold handleVideoPlay. by break_tests.
  - unfold tick. by break_tests.
  - unfold tick_resume. by break_tests.
  - by break_tests.
  - by break_tests.
Qed.

Lemma onstop_artifact (recorder : nat) (w : World) :
  (recordedChunksRef w = [] ∧
   videoUrl (onstop recorder w) = "" ∧
   objectURLs (onstop recorder w) = objectURLs w ∧
   urlCounter (onstop recorder w) = urlCounter w ∧
   error (onstop recorder w)
     = "Recording stopped, but no video data was captured. This might be due to codec issues or camera not providing data.")
  ∨ (recordedChunksRef w ≠ [] ∧
     videoUrl (onstop recorder w) = "blob:" +:+ pretty (urlCounter w) ∧
     objectURLs (onstop recorder w)
       = <["blob:" +:+ pretty (urlCounter w) :=
             {| blob_parts := recordedChunksRef w;
                blob_type := split_semicolon_0
                               match recorders w !! recorder with
                               | Some r => rec_mimeType r
                               | None => ""
                               end |}]> (objectURLs w) ∧
     urlCounter (onstop recorder w) = S (urlCounter w) ∧
     error (onstop recorder w) = error w).
Proof.
  unfold onstop. cbv zeta. destruct (recordedChunksRef w) as [|c cs]; simpl.
  - by left.
  - right. by repeat split.
Qed.

Lemma firstSupported_elem (supported : string → bool) (l : list string) :
  truthy (firstSupported supported l "") = true →
  firstSupported supported l "" ∈ l.
Proof.
  induction l as [|x l IH]; simpl; [done|].
  destruct (supported x); [by left|]. intros H. right. by apply IH.
Qed.

Lemma container_type (t : string) :
  t ∈ possibleMimeTypes → split_semicolon_0 t ∈ ["video/webm"; "video/mp4"].
Proof.
  unfold possibleMimeTypes. rewrite !elem_of_cons, elem_of_nil.
  intros H. repeat destruct H as [->|H]; [..|done];
    apply (bool_decide_unpack _); vm_compute; exact I.
Qed.

Lemma step_artifacts_sound (v : Variant) (w : World) (ev : Event) :
  artifacts_sound w → artifacts_sound (step v w ev).
Proof.
  intros Hw. destruct (artifact_event ev) eqn:Hev.
  2: { destruct (step_artifact_frame v w ev Hev) as (H1 & H2 & _ & H4 & H5).
       unfold artifacts_sound. by rewrite H1, H2, H4, H5. }
  pose proof Hw as (Hurl & Hblobs & Hrecs & Hbuf).
  destruct ev; try done; simpl.
  - destruct (recording w || negb (modelsLoaded w) || negb (isCameraReady w)); [done|].
    unfold startRecording.
    destruct (negb (videoRef_current w) || negb (canvasRef_current w)
              || negb (isCameraReady w)); [done|].
    cbv zeta.
    pose proof (firstSupported_elem (isTypeSupported env) possibleMimeTypes) as Hin.
    set (t := firstSupported (isTypeSupported env) possibleMimeTypes "") in *.
    destruct (truthy t); [|done]. simpl negb. cbv iota.
    destruct (constructorThrows env); [done|].
    split; [done|]. split; [done|]. split; [|done].
    simpl. apply Forall_app. split; [done|]. constructor; [|done]. by apply Hin.
  - destruct (negb (recording w)); [done|]. unfold stopRecording.
    destruct (mediaRecorder w) as [j|]; [|done].
    destruct (recording w); [|done].
    destruct (recorders w !! j) as [rj|] eqn:Hj; [|done].
    split; [done|]. split; [done|]. split; [|done].
    simpl. apply Forall_insert; [done|].
    pose proof (Forall_lookup_1 _ _ _ _ Hrecs Hj) as Hm.
    unfold MediaRecorder_stop. by destruct (rec_state rj).
  - destruct (truthy (videoUrl w)) eqn:Hu; [|done]. unfold downloadVideo.
    rewrite Hu. cbv zeta.
    destruct v; (split; [by left|]; split; [|done]; by apply map_Forall_delete).
  - destruct (bool_decide (recorder ∈ timeouts w)); [|done].
    unfold startRecording_timeout. simpl.
    destruct (recorders w !! recorder) as [r|] eqn:Hr; [|done].
    destruct (rec_state r) eqn:Hs; try done.
    split; [by left|]. split; [done|]. split; [|done].
    simpl. apply Forall_insert; [done|].
    pose proof (Forall_lookup_1 _ _ _ _ Hrecs Hr) as Hm.
    unfold MediaRecorder_start. by rewrite Hs.
  - destruct (recorders w !! recorder) as [r|]; [|done].
    destruct (flushes r); [|done]. unfold ondataavailable.
    destruct (size >? 0) eqn:Hsz; [|done].
    split; [done|]. split; [done|]. split; [done|].
    simpl. apply Forall_app. split; [done|]. constructor; [simpl; lia|done].
  - destruct (recorders w !! recorder) as [r|] eqn:Hr; [|done].
    destruct (rec_stopping r); [|done].
    pose proof (Forall_lookup_1 _ _ _ _ Hrecs Hr) as Hm.
    set (w1 := set_recorders _ w).
    set (w2 := ondataavailable recorder size w1).
    assert (Hrecs2 : recorders w2 = recorders w1)
      by (unfold w2, ondataavailable; by destruct (size >? 0)).
    assert (Hurls2 : objectURLs w2 = objectURLs w)
      by (unfold w2, ondataavailable; by destruct (size >? 0)).
    assert (Hbuf2 : Forall (λ c, 0 < chunk_size c) (recordedChunksRef w2)).
    { unfold w2, ondataavailable. destruct (size >? 0) eqn:Hsz; [|done]. simpl.
      apply Forall_app. split; [done|]. constructor; [simpl; lia|done]. }
    assert (Hrecs1 : Forall (λ r, rec_mimeType r ∈ possibleMimeTypes) (recorders w1))
      by (by apply Forall_insert).
    assert (Hj : recorders w2 !! recorder
                 = Some {| rec_mimeType := rec_mimeType r; rec_state := rec_state r;
                           rec_timeslice := rec_timeslice r; rec_stopping := false |}).
    { rewrite Hrecs2. apply list_lookup_insert_eq. by eapply lookup_lt_Some. }
    unfold artifacts_sound. rewrite onstop_recorders, onstop_buffer, Hrecs2.
    destruct (onstop_artifact recorder w2) as [(_ & -> & -> & _)|(Hne & -> & -> & _)].
    + rewrite Hurls2. split; [by left|]. by split.
    + rewrite Hurls2, Hj. cbv iota beta.
      split; [right; rewrite lookup_insert_eq; by eexists|].
      split; [|by split].
      apply map_Forall_insert_2; [|done].
      split; [done|]. split; [done|]. by apply container_type.
Qed.

Lemma run_artifacts_sound (v : Variant) (evs : list Event) :
  ∀ w, artifacts_sound w → artifacts_sound (run v evs w).
Proof.
  induction evs as [|ev evs IH]; intros w Hw; [done|].
  rewrite run_cons. apply IH. by apply step_artifacts_sound.
Qed.

Lemma initialWorld_artifacts_sound : artifacts_sound initialWorld.
Proof.
  split; [by left|]. split; [apply map_Forall_empty|]. split; constructor.
Qed.

(** X15: whenever the download section is rendered, the URL on display is a
    live object URL, and the blob behind it is playable: it has at least one
    chunk, none of its chunks is empty, and its type is the bare container
    type video/webm or video/mp4. *)
Theorem displayed_artifact_is_live (v : Variant) (evs : list Event) :
  downloadSection_shown (run v evs initialWorld) = true →
  ∃ blob,
    objectURLs (run v evs initialWorld) !! videoUrl (run v evs initialWorld)
      = Some blob ∧
    blob_parts blob ≠ [] ∧
    Forall (λ c, 0 < chunk_size c) (blob_parts blob) ∧
    blob_type blob ∈ ["video/webm"; "video/mp4"].
Proof.
  intros Hshown.
  destruct (run_artifacts_sound v evs _ initialWorld_artifacts_sound)
    as ([Hurl|[blob Hblob]] & Hblobs & _).
  - unfold downloadSection_shown in Hshown. by rewrite Hurl in Hshown.
  - exists blob. split; [done|]. by apply (Hblobs _ _ Hblob).
Qed.

Lemma displayed_artifact_is_live_witness :
  ∃ blob,
    objectURLs (run page_js [ModelsLoaded; WebcamRequested; WebcamGranted;
                             ClickStart allSupported; TimerFired 0%nat;
                             ClickStop; Stopped 0%nat 1000] initialWorld)
      !! videoUrl (run page_js [ModelsLoaded; WebcamRequested; WebcamGranted;
                                ClickStart allSupported; TimerFired 0%nat;
                                ClickStop; Stopped 0%nat 1000] initialWorld)
      = Some blob ∧
    blob_parts blob ≠ [] ∧
    Forall (λ c, 0 < chunk_size c) (blob_parts blob) ∧
    blob_type blob ∈ ["video/webm"; "video/mp4"].
Proof.
  apply (displayed_artifact_is_live page_js
           [ModelsLoaded; WebcamRequested; WebcamGranted;
            ClickStart allSupported; TimerFired 0%nat;
            ClickStop; Stopped 0%nat 1000]).
  vm_compute. reflexivity.
Defined.

Lemma step_objectURLs_cases (v : Variant) (w : World) (ev : Event) :
  (objectURLs (step v w ev) = objectURLs w ∧ urlCounter (step v w ev) = urlCounter w)
  ∨ (∃ blob,
       objectURLs (step v w ev)
         = <["blob:" +:+ pretty (urlCounter w) := blob]> (objectURLs w) ∧
       urlCounter (step v w ev) = S (urlCounter w))
  ∨ (∃ now, ev = ClickDownload now ∧
            objectURLs (step v w ev) = delete (videoUrl w) (objectURLs w) ∧
            urlCounter (step v w ev) = urlCounter w).
Proof.
  destruct (artifact_event ev) eqn:Hev.
  2: { left. by destruct (step_artifact_frame v w ev Hev) as (_ & -> & -> & _). }
  destruct ev; try done; simpl.
  - left. unfold startRecording. by break_tests.
  - left. unfold stopRecording. by break_tests.
  - destruct (truthy (videoUrl w)) eqn:Hu; [|by left].
    right. right. exists now. unfold downloadVideo. rewrite Hu. by destruct v.
  - left. unfold startRecording_timeout. simpl. by break_tests.
  - left. unfold ondataavailable. by break_tests.
  - destruct (recorders w !! recorder) as [r|]; [|by left].
    destruct (rec_stopping r); [|by left].
    set (w2 := ondataavailable recorder size _).
    assert (H2 : objectURLs w2 = objectURLs w ∧ urlCounter w2 = urlCounter w)
      by (unfold w2, ondataavailable; by destruct (size >? 0)).
    destruct H2 as [Hu Hc].
    destruct (onstop_artifact recorder w2)
      as [(_ & _ & -> & -> & _)|(_ & _ & -> & -> & _)]; rewrite Hu, Hc.
    + by left.
    + right. left. by eexists.
Qed.

Lemma blob_url_inj (n m : nat) :
  "blob:" +:+ pretty n = "blob:" +:+ pretty m → n = m.
Proof.
  intros [= H]. change (pretty n = pretty m) in H. by apply (inj pretty) in H.
Qed.

Lemma step_urls_numbered (v : Variant) (w : World) (ev : Event) :
  urls_numbered w → urls_numbered (step v w ev).
Proof.
  intros Hw url.
  destruct (step_objectURLs_cases v w ev)
    as [[-> ->]|[(blob & -> & ->)|(now & _ & -> & ->)]].
  - apply Hw.
  - destruct (decide ("blob:" +:+ pretty (urlCounter w) = url)) as [<-|Hne].
    + intros _. exists (urlCounter w). split; [lia|done].
    + rewrite lookup_insert_ne by done. intros H.
      destruct (Hw url H) as (n & Hn & ->). exists n. split; [lia|done].
  - intros [blob [_ H]%lookup_delete_Some]. apply Hw. by exists blob.
Qed.

Lemma run_urls_numbered (v : Variant) (evs : list Event) :
  ∀ w, urls_numbered w → urls_numbered (run v evs w).
Proof.
  induction evs as [|ev evs IH]; intros w Hw; [done|].
  rewrite run_cons. apply IH. by apply step_urls_numbered.
Qed.

Lemma initialWorld_urls_numbered : urls_numbered initialWorld.
Proof. intros url [blob H]. simpl in H. by rewrite lookup_empty in H. Qed.

(** X16: an object URL is released by a click on Download and by nothing
    else.  Every other event keeps every live object URL with its blob, so
    an artifact that is replaced by a new recording without having been
    downloaded stays allocated. *)
Theorem objectURLs_released_only_by_download (v : Variant) (evs : list Event)
    (ev : Event) :
  (∀ now, ev ≠ ClickDownload now) →
  objectURLs (run v evs initialWorld) ⊆ objectURLs (step v (run v evs initialWorld) ev).
Proof.
  intros Hev.
  pose proof (run_urls_numbered v evs _ initialWorld_urls_numbered) as Hnum.
  destruct (step_objectURLs_cases v (run v evs initialWorld) ev)
    as [[-> _]|[(blob & -> & _)|(now & -> & _)]].
  - done.
  - apply insert_subseteq.
    destruct (objectURLs (run v evs initialWorld)
                !! ("blob:" +:+ pretty (urlCounter (run v evs initialWorld))))
      as [b|] eqn:Hb; [|done].
    destruct (Hnum _ (mk_is_Some _ _ Hb)) as (n & Hn & Heq).
    apply blob_url_inj in Heq. lia.
  - by destruct (Hev now).
Qed.

Lemma objectURLs_released_only_by_download_witness :
  objectURLs (run page_js [ModelsLoaded; WebcamRequested; WebcamGranted;
                           ClickStart allSupported; TimerFired 0%nat;
                           ClickStop; Stopped 0%nat 1000;
                           ClickStart allSupported] initialWorld)
  ⊆ objectURLs (step page_js
                  (run page_js [ModelsLoaded; WebcamRequested; WebcamGranted;
                                ClickStart allSupported; TimerFired 0%nat;
                                ClickStop; Stopped 0%nat 1000;
                                ClickStart allSupported] initialWorld)
                  (TimerFired 1%nat)).
Proof.
  apply objectURLs_released_only_by_download. discriminate.
Defined.

Example replaced_artifact_stays_allocated :
  let w := run part_000 [ClickStart allSupported; TimerFired 0%nat; ClickStop;
                         Stopped 0%nat 1000;
                         ClickStart allSupported; TimerFired 1%nat]
             (readyWorld part_000) in
  videoUrl w = "" ∧ downloadSection_shown w = false ∧
  objectURLs w !! "blob:0"
    = Some {| blob_parts := [ {| chunk_of := 0; chunk_size := 1000 |} ];
              blob_type := "video/webm" |}.
Proof. vm_compute. repeat split. Qed.

(** * Before the models are loaded *)

Lemma step_modelsLoaded (v : Variant) (w : World) (ev : Event) :
  ev ≠ ModelsLoaded → modelsLoaded (step v w ev) = modelsLoaded w.
Proof.
  intros Hev. destruct ev; try done; simpl.
  - unfold startWebcam_resolved. by break_tests.
  - destruct (modelsLoaded w) eqn:Hm; [|done].
    unfold handleVideoPlay. rewrite Hm. by break_tests.
  - unfold tick. by break_tests.
  - unfold tick_resume. by break_tests.
  - by break_tests.
  - unfold startRecording. by break_tests.
  - unfold stopRecording. by break_tests.
  - unfold downloadVideo. by break_tests.
  - unfold startRecording_timeout. simpl. by break_tests.
  - by break_tests.
  - unfold ondataavailable. by break_tests.
  - unfold onstop, ondataavailable. cbv zeta.
    destruct (recorders w !! recorder) as [r|]; [|done].
    destruct (rec_stopping r); [|done].
    destruct (size >? 0); simpl; by destruct (0 <? length _)%nat.
Qed.

Lemma step_idle (v : Variant) (w : World) (ev : Event) :
  modelsLoaded w = false → idle w → ev ≠ ModelsLoaded → idle (step v w ev).
Proof.
  intros Hm (H1 & H2 & H3 & H4 & H5 & H6 & H7 & H8 & H9 & H10) Hev.
  destruct ev; try done; simpl.
  - unfold startWebcam_resolved. destruct (videoRef_current w); by repeat split.
  - by rewrite Hm.
  - by rewrite H1.
  - by rewrite H2.
  - destruct v; by repeat split.
  - by rewrite H6, Hm.
  - by rewrite H6.
  - by rewrite H7.
  - rewrite H5. by rewrite bool_decide_eq_false_2 by apply not_elem_of_nil.
  - by rewrite H4.
  - by rewrite H4.
  - by rewrite H4.
Qed.

(** X17: as long as the models are not loaded, nothing else has happened: no
    detection interval runs, no frame was drawn, no detection call was made,
    the tally is all zero, and no recorder, start timer, artifact or saved
    file exists. *)
Theorem nothing_before_models (v : Variant) (evs : list Event) :
  modelsLoaded (run v evs initialWorld) = false →
  idle (run v evs initialWorld).
Proof.
  induction evs as [|ev evs IH] using rev_ind; [by repeat split|].
  rewrite run_snoc. intros Hm.
  assert (ev = ModelsLoaded ∨ ev ≠ ModelsLoaded) as [->|Hev]
    by (destruct ev; (by left) || (by right)); [done|].
  rewrite step_modelsLoaded in Hm by done.
  apply step_idle; [done| |done]. by apply IH.
Qed.

Lemma nothing_before_models_witness :
  idle (run part_000
          [WebcamRequested; WebcamGranted; Play 640 480; Tick false false;
           ClickStart allSupported; TimerFired 0%nat; ClickStop; ClickReset]
          initialWorld).
Proof.
  apply nothing_before_models. vm_compute. reflexivity.
Defined.

(** * Handlers of the recording pipeline *)

Local Open Scope list_scope.

Lemma set_recordedChunksRef_id (w : World) :
  set_recordedChunksRef (recordedChunksRef w) w = w.
Proof. by destruct w. Qed.

Lemma deliver_buffer (recorder : nat) (sizes : list Z) :
  ∀ w, deliver recorder sizes w
       = set_recordedChunksRef (recordedChunksRef w ++ chunks_of recorder sizes) w.
Proof.
  induction sizes as [|size sizes IH]; intros w.
  - unfold chunks_of. simpl. by rewrite app_nil_r, set_recordedChunksRef_id.
  - change (deliver recorder (size :: sizes) w)
      with (deliver recorder sizes (ondataavailable recorder size w)).
    rewrite IH. unfold chunks_of, ondataavailable. rewrite filter_cons.
    destruct (Z.gtb_spec size 0) as [Hpos|Hneg].
    + rewrite decide_True by lia. simpl. by rewrite <- app_assoc.
    + by rewrite decide_False by lia.
Qed.

(** X18: data events followed by the stop event of a recorder.  The chunks
    are buffered in arrival order and empty ones are dropped; [onstop] then
    builds one blob from exactly the buffered chunks, typed with the bare
    container type of the recorder, and displays its fresh object URL, or,
    when no chunk is buffered, reports that no data was captured and
    displays nothing.  Either way the buffer is empty afterwards. *)
Theorem data_then_stop (recorder : nat) (sizes : list Z) (w : World) :
  let chunks := recordedChunksRef w ++ chunks_of recorder sizes in
  let w' := onstop recorder (deliver recorder sizes w) in
  recordedChunksRef w' = [] ∧
  match chunks with
  | [] =>
      videoUrl w' = "" ∧ objectURLs w' = objectURLs w ∧
      error w' = "Recording stopped, but no video data was captured. This might be due to codec issues or camera not providing data."
  | _ :: _ =>
      videoUrl w' = "blob:" +:+ pretty (urlCounter w) ∧
      objectURLs w'
        = <["blob:" +:+ pretty (urlCounter w) :=
              {| blob_parts := chunks;
                 blob_type := split_semicolon_0
                                match recorders w !! recorder with
                                | Some r => rec_mimeType r
                                | None => ""
                                end |}]> (objectURLs w) ∧
      error w' = error w
  end.
Proof.
  cbv zeta. split; [apply onstop_buffer|].
  rewrite deliver_buffer.
  destruct (onstop_artifact recorder
              (set_recordedChunksRef (recordedChunksRef w ++ chunks_of recorder sizes) w))
    as [(Hnil & -> & -> & _ & ->)|(Hne & -> & -> & _ & ->)]; simpl in *.
  - by rewrite Hnil.
  - by destruct (recordedChunksRef w ++ chunks_of recorder sizes).
Qed.

Example data_then_stop_order :
  blob_parts <$>
    (objectURLs (onstop 0 (deliver 0 [300; 0; 200; -1; 100]
                             (run page_js [ClickStart allSupported; TimerFired 0%nat]
                                (readyWorld page_js))))
       !! "blob:0")
  = Some [ {| chunk_of := 0; chunk_size := 300 |};
           {| chunk_of := 0; chunk_size := 200 |};
           {| chunk_of := 0; chunk_size := 100 |} ].
Proof. vm_compute. reflexivity. Qed.

(** X19: [split(';')[0]]: the result is the part of the string before its
    first semicolon.  The string is the result followed by nothing or by a
    rest that begins with a semicolon, and the result contains no
    semicolon. *)
Theorem split_semicolon_0_spec (s : string) :
  (∃ rest, s = split_semicolon_0 s +:+ rest ∧
           (rest = "" ∨ ∃ tail, rest = String ";"%char tail)) ∧
  ∀ a b, split_semicolon_0 s ≠ a +:+ String ";"%char b.
Proof.
  induction s as [|c s [(rest & Hrest & Htail) Hno]]; simpl.
  - split; [exists ""; split; [done|by left]|]. by intros [|? ?] b.
  - destruct (Ascii.eqb_spec c ";"%char) as [->|Hc].
    + split; [eexists; split; [done|right; by eexists]|]. by intros [|? ?] b.
    + split.
      * exists rest. split; [|done].
        change (String c s = String c (split_semicolon_0 s +:+ rest)). by f_equal.
      * intros [|c' a] b; simpl; intros [= H1 H2]; [done|]. by apply (Hno a b).
Qed.

Example split_semicolon_0_candidates :
  split_semicolon_0 <$> possibleMimeTypes
  = ["video/webm"; "video/webm"; "video/webm"; "video/webm"; "video/webm"; "video/mp4"].
Proof. reflexivity. Qed.

(** X20: [stopRecording] twice is [stopRecording] once: the first call
    clears the recording flag, so a second call finds nothing to stop. *)
Theorem stopRecording_idempotent (w : World) :
  stopRecording (stopRecording w) = stopRecording w.
Proof.
  unfold stopRecording at 2 3.
  destruct (mediaRecorder w) as [j|] eqn:Hj.
  2: { unfold stopRecording. by rewrite Hj. }
  destruct (recording w) eqn:Hrec.
  2: { unfold stopRecording. by rewrite Hj, Hrec. }
  destruct (recorders w !! j) as [r|] eqn:Hr.
  2: { unfold stopRecording. by rewrite Hj, Hrec, Hr. }
  unfold stopRecording. simpl. by rewrite Hj.
Qed.

(** X21: [downloadVideo] with an empty reference changes nothing, and after
    any call the reference is empty; so calling it twice is the same as
    calling it once, in both variants. *)
Theorem download_at_most_once (v : Variant) (now now' : Z) (w : World) :
  downloadVideo v now (setVideoUrl "" w) = setVideoUrl "" w ∧
  downloadSection_shown (downloadVideo v now w) = false ∧
  downloadVideo v now' (downloadVideo v now w) = downloadVideo v now w.
Proof.
  split; [done|]. split; [|apply downloadVideo_twice].
  unfold downloadSection_shown, downloadVideo.
  destruct (truthy (videoUrl w)) eqn:Hu; [by destruct v|done].
Qed.

(** * Starting the annotation loop *)

Lemma handleVideoPlay_started (videoWidth videoHeight : Z) (w : World) :
  videoRef_current w = true → canvasRef_current w = true → modelsLoaded w = true →
  videoWidth ≠ 0 → videoHeight ≠ 0 →
  step part_000 w (Play videoWidth videoHeight)
    = set_loop (S (detectionIntervals w)) (inFlight w) (framesDrawn w) w ∧
  step page_js w (Play videoWidth videoHeight)
    = set_loop (S (detectionIntervals w)) (inFlight w) (framesDrawn w) w.
Proof.
  intros Hv Hc Hm Hw Hh. simpl. unfold handleVideoPlay. rewrite Hv, Hc, Hm. simpl.
  apply Z.eqb_neq in Hw as ->. by apply Z.eqb_neq in Hh as ->.
Qed.

(** X22: [handleVideoPlay] never clears an interval.  With the element refs
    set, the models loaded and non-zero video dimensions, every [play]
    event adds one more detection interval to those already running; with a
    zero width or height it starts none. *)
Theorem plays_stack_intervals (v : Variant) (n : nat) (videoWidth videoHeight : Z) :
  ∀ w : World,
    videoRef_current w = true → canvasRef_current w = true → modelsLoaded w = true →
    videoWidth ≠ 0 → videoHeight ≠ 0 →
    detectionIntervals (run v (replicate n (Play videoWidth videoHeight)) w)
      = (detectionIntervals w + n)%nat ∧
    step v w (Play 0 videoHeight) = w ∧
    step v w (Play videoWidth 0) = w.
Proof.
  induction n as [|n IH]; intros w Hv Hc Hm Hw Hh.
  - split; [simpl; lia|].
    simpl. unfold handleVideoPlay. rewrite Hv, Hc, Hm. simpl.
    by rewrite orb_true_r.
  - destruct (IH w Hv Hc Hm Hw Hh) as (_ & H0 & H0').
    split; [|done].
    change (replicate (S n) (Play videoWidth videoHeight))
      with (Play videoWidth videoHeight :: replicate n (Play videoWidth videoHeight)).
    rewrite run_cons.
    destruct (handleVideoPlay_started videoWidth videoHeight w Hv Hc Hm Hw Hh)
      as [H1 H2].
    assert (Hstep : step v w (Play videoWidth videoHeight)
                    = set_loop (S (detectionIntervals w)) (inFlight w) (framesDrawn w) w)
      by (by destruct v).
    rewrite Hstep.
    destruct (IH (set_loop (S (detectionIntervals w)) (inFlight w) (framesDrawn w) w))
      as (-> & _); try done.
    simpl. lia.
Qed.

Lemma plays_stack_intervals_witness :
  detectionIntervals (run page_js (replicate 2 (Play 640 480)) (readyWorld page_js))
    = (detectionIntervals (readyWorld page_js) + 2)%nat ∧
  step page_js (readyWorld page_js) (Play 0 480) = readyWorld page_js ∧
  step page_js (readyWorld page_js) (Play 640 0) = readyWorld page_js.
Proof.
  apply (plays_stack_intervals page_js 2 640 480 (readyWorld page_js));
    (reflexivity || lia).
Defined.

(** * A whole recording session *)

Lemma startRecording_success (env : Env) (w : World) (l1 l2 : list string) (t : string) :
  videoRef_current w = true → canvasRef_current w = true → isCameraReady w = true →
  possibleMimeTypes = l1 ++ t :: l2 →
  Forall (λ x, isTypeSupported env x = false) l1 →
  isTypeSupported env t = true →
  constructorThrows env = None →
  startRecording env w
  = set_timeouts (timeouts w ++ [length (recorders w)])
      (set_recordedChunksRef []
         (set_recorders
            (recorders w ++ [ {| rec_mimeType := t; rec_state := Inactive;
                                 rec_timeslice := None; rec_stopping := false |} ]) w)).
Proof.
  intros Hv Hc Hr Hl Hl1 Ht Hctor. unfold startRecording. rewrite Hv, Hc, Hr.
  change (negb true || negb true || negb true) with false. cbv iota zeta.
  assert (Htruthy : truthy t = true).
  { apply possibleMimeTypes_truthy. rewrite Hl.
    apply elem_of_app. right. apply elem_of_cons. by left. }
  rewrite Hl, firstSupported_first, Htruthy, Hctor by done. done.
Qed.

(** X23: one whole session, from any state in which the Start button is
    enabled.  Start, the start timer, Stop and the recorder's final data of
    positive size leave the recorder inactive, the recording flag cleared,
    and exactly one new object URL on display, whose blob is that one chunk
    typed with the container of the first supported candidate type.  The
    statistics variant then saves it under a name that ends in .webm,
    whatever that container is. *)
Theorem recording_session (v : Variant) (env : Env) (l1 l2 : list string) (t : string)
    (size now : Z) (w : World) :
  videoRef_current w = true → canvasRef_current w = true →
  isCameraReady w = true → modelsLoaded w = true → recording w = false →
  possibleMimeTypes = l1 ++ t :: l2 →
  Forall (λ x, isTypeSupported env x = false) l1 →
  isTypeSupported env t = true →
  constructorThrows env = None →
  0 < size →
  let i := length (recorders w) in
  let url := "blob:" +:+ pretty (urlCounter w) in
  let w' := run v [ClickStart env; TimerFired i; ClickStop; Stopped i size] w in
  recording w' = false ∧
  videoUrl w' = url ∧
  objectURLs w'
    = <[url := {| blob_parts := [ {| chunk_of := i; chunk_size := size |} ];
                  blob_type := split_semicolon_0 t |}]> (objectURLs w) ∧
  recorders w' !! i
    = Some {| rec_mimeType := t; rec_state := Inactive;
              rec_timeslice := None; rec_stopping := false |} ∧
  saved (downloadVideo part_000 now w')
    = saved w ++ [("face-tracking-video-" +:+ pretty now +:+ ".webm", url)].
Proof.
  intros Hv Hc Hr Hm Hrec Hl Hl1 Ht Hctor Hsize. cbv zeta.
  set (i := length (recorders w)).
  set (r0 := {| rec_mimeType := t; rec_state := Inactive;
                rec_timeslice := None; rec_stopping := false |}).
  assert (Hi : (recorders w ++ [r0]) !! i = Some r0) by (by apply list_lookup_middle).
  assert (Hlt : (i < length (recorders w ++ [r0]))%nat)
    by (rewrite length_app; simpl; lia).
  rewrite !run_cons. change (run v [] ?x) with x.
  assert (H1 : step v w (ClickStart env)
               = set_timeouts (timeouts w ++ [i])
                   (set_recordedChunksRef [] (set_recorders (recorders w ++ [r0]) w))).
  { simpl. rewrite Hrec, Hm, Hr. simpl.
    by apply (startRecording_success env w l1 l2 t). }
  rewrite H1. clear H1.
  set (w1 := set_timeouts _ _).
  assert (H2 : recorders (step v w1 (TimerFired i))
                 = <[i := MediaRecorder_start None r0]> (recorders w ++ [r0]) ∧
               mediaRecorder (step v w1 (TimerFired i)) = Some i ∧
               recording (step v w1 (TimerFired i)) = true ∧
               recordedChunksRef (step v w1 (TimerFired i)) = [] ∧
               objectURLs (step v w1 (TimerFired i)) = objectURLs w ∧
               urlCounter (step v w1 (TimerFired i)) = urlCounter w ∧
               saved (step v w1 (TimerFired i)) = saved w).
  { simpl. rewrite bool_decide_eq_true_2
      by (apply elem_of_app; right; by apply list_elem_of_singleton).
    unfold startRecording_timeout. simpl. by rewrite Hi. }
  set (w2 := step v w1 (TimerFired i)) in *.
  destruct H2 as (R2 & M2 & F2 & B2 & U2 & C2 & S2).
  assert (H3 : recorders (step v w2 ClickStop)
                 = <[i := MediaRecorder_stop (MediaRecorder_start None r0)]> (recorders w2) ∧
               recording (step v w2 ClickStop) = false ∧
               recordedChunksRef (step v w2 ClickStop) = [] ∧
               objectURLs (step v w2 ClickStop) = objectURLs w ∧
               urlCounter (step v w2 ClickStop) = urlCounter w ∧
               saved (step v w2 ClickStop) = saved w).
  { simpl. rewrite F2. simpl. unfold stopRecording. rewrite M2, F2, R2.
    rewrite list_lookup_insert_eq by done. by simpl. }
  set (w3 := step v w2 ClickStop) in *.
  destruct H3 as (R3 & F3 & B3 & U3 & C3 & S3).
  assert (Hi3 : recorders w3 !! i
                = Some {| rec_mimeType := t; rec_state := Inactive;
                          rec_timeslice := None; rec_stopping := true |}).
  { rewrite R3, R2. rewrite list_lookup_insert_eq; [done|]. by rewrite length_insert. }
  assert (Hlt3 : (i < length (recorders w3))%nat) by (by eapply lookup_lt_Some).
  simpl step. rewrite Hi3. simpl rec_stopping. cbv iota.
  set (w3' := set_recorders _ w3).
  assert (Hi3' : recorders w3' !! i = Some r0)
    by (unfold w3'; simpl; by rewrite list_lookup_insert_eq).
  assert (Hgt : (size >? 0) = true) by (apply Z.gtb_lt; lia).
  unfold ondataavailable. rewrite Hgt.
  set (w4 := set_recordedChunksRef _ w3').
  assert (B4 : recordedChunksRef w4 = [ {| chunk_of := i; chunk_size := size |} ])
    by (unfold w4, w3'; simpl; by rewrite B3).
  destruct (onstop_artifact i w4) as [(Hnil & _)|(_ & Hu & Ho & _ & _)];
    [by rewrite B4 in Hnil|].
  destruct (onstop_fields i w4) as (_ & _ & Hf).
  assert (S4 : saved (onstop i w4) = saved w).
  { unfold onstop. cbv zeta. rewrite B4. simpl. by rewrite S3. }
  assert (C4 : urlCounter w4 = urlCounter w) by (unfold w4, w3'; simpl; by rewrite C3).
  assert (U4 : objectURLs w4 = objectURLs w) by (unfold w4, w3'; simpl; by rewrite U3).
  assert (R4 : recorders w4 !! i = Some r0) by (unfold w4; by simpl).
  rewrite C4 in Hu, Ho. rewrite B4, U4, R4 in Ho. simpl in Ho.
  split; [rewrite Hf; unfold w4, w3'; simpl; by rewrite F3|].
  split; [done|]. split; [done|].
  split; [by rewrite onstop_recorders|].
  destruct (downloadVideo_part_000 now (onstop i w4)) as (Hs & _); [by rewrite Hu|].
  by rewrite Hs, Hu, S4.
Qed.

Lemma recording_session_witness :
  let env := {| isTypeSupported := λ x, String.eqb x "video/mp4; codecs=avc1";
                constructorThrows := None |} in
  let w := readyWorld part_000 in
  let i := length (recorders w) in
  let url := "blob:" +:+ pretty (urlCounter w) in
  let w' := run part_000 [ClickStart env; TimerFired i; ClickStop; Stopped i 1000] w in
  recording w' = false ∧
  videoUrl w' = url ∧
  objectURLs w'
    = <[url := {| blob_parts := [ {| chunk_of := i; chunk_size := 1000 |} ];
                  blob_type := split_semicolon_0 "video/mp4; codecs=avc1" |}]>
        (objectURLs w) ∧
  recorders w' !! i
    = Some {| rec_mimeType := "video/mp4; codecs=avc1"; rec_state := Inactive;
              rec_timeslice := None; rec_stopping := false |} ∧
  saved (downloadVideo part_000 1700000000000 w')
    = saved w ++ [("face-tracking-video-" +:+ pretty 1700000000000 +:+ ".webm", url)].
Proof.
  cbv zeta.
  apply (recording_session part_000
           {| isTypeSupported := λ x, String.eqb x "video/mp4; codecs=avc1";
              constructorThrows := None |}
           ["video/webm; codecs=vp9,opus"; "video/webm; codecs=vp8,opus";
            "video/webm; codecs=vp9"; "video/webm; codecs=vp8"; "video/webm"]
           [] "video/mp4; codecs=avc1" 1000 1700000000000 (readyWorld part_000));
    first [ reflexivity | repeat constructor ].
Defined.

Example mp4_saved_as_webm :
  let env := {| isTypeSupported := λ x, String.eqb x "video/mp4; codecs=avc1";
                constructorThrows := None |} in
  let w := run part_000 [ClickStart env; TimerFired 0%nat; ClickStop; Stopped 0%nat 1000]
             (readyWorld part_000) in
  blob_type <$> objectURLs w !! "blob:0" = Some "video/mp4" ∧
  saved (step part_000 w (ClickDownload 1700000000000))
    = [("face-tracking-video-1700000000000.webm", "blob:0")].
Proof. vm_compute. split; reflexivity. Qed.

(** * More on the annotation loop and the camera *)

Lemma ticks_without_interval (v : Variant) (n : nat) (w : World) :
  detectionIntervals w = 0%nat →
  run v (replicate n (Tick false false)) w = w.
Proof.
  intros H0. induction n as [|n IH]; [done|].
  change (replicate (S n) (Tick false false))
    with (Tick false false :: replicate n (Tick false false)).
  rewrite run_cons. simpl step. by rewrite H0.
Qed.

(** X24: the loop does not come back by itself.  When the only running
    interval meets a paused or ended video it is cleared, and every later
    tick, even on a video that plays again, draws nothing and starts no
    detection call; only a new [play] event starts the loop again. *)
Theorem ticks_after_clear (v : Variant) (paused ended : bool) (n : nat) (w : World) :
  detectionIntervals w = 1%nat →
  paused || ended = true →
  run v (Tick paused ended :: replicate n (Tick false false)) w
    = set_loop 0 (inFlight w) (framesDrawn w) w.
Proof.
  intros H1 Hp. rewrite run_cons.
  assert (Hstep : step v w (Tick paused ended)
                  = set_loop 0 (inFlight w) (framesDrawn w) w).
  { simpl. rewrite H1. simpl. unfold tick. rewrite H1.
    by destruct paused, ended. }
  rewrite Hstep. by apply ticks_without_interval.
Qed.

Lemma ticks_after_clear_witness :
  run page_js (Tick true false :: replicate 3 (Tick false false))
    (run page_js [Play 640 480; Tick false false] (readyWorld page_js))
  = set_loop 0
      (inFlight (run page_js [Play 640 480; Tick false false] (readyWorld page_js)))
      (framesDrawn (run page_js [Play 640 480; Tick false false] (readyWorld page_js)))
      (run page_js [Play 640 480; Tick false false] (readyWorld page_js)).
Proof.
  apply (ticks_after_clear page_js true false 3); reflexivity.
Defined.

(** X25: when the MediaRecorder constructor throws, [startRecording] reports
    the failure with the exception's message and does nothing else: no
    recorder, no start timer, and the chunk buffer is left as it was. *)
Theorem startRecording_constructor_failure (env : Env) (w : World)
    (l1 l2 : list string) (t e_message : string) :
  videoRef_current w = true → canvasRef_current w = true → isCameraReady w = true →
  possibleMimeTypes = l1 ++ t :: l2 →
  Forall (λ x, isTypeSupported env x = false) l1 →
  isTypeSupported env t = true →
  constructorThrows env = Some e_message →
  startRecording env w
  = setError ("Failed to create video recorder: " +:+ e_message
              +:+ ". Try a different browser or check codec support.") w.
Proof.
  intros Hv Hc Hr Hl Hl1 Ht Hctor. unfold startRecording. rewrite Hv, Hc, Hr.
  change (negb true || negb true || negb true) with false. cbv iota zeta.
  assert (Htruthy : truthy t = true).
  { apply possibleMimeTypes_truthy. rewrite Hl.
    apply elem_of_app. right. apply elem_of_cons. by left. }
  rewrite Hl, firstSupported_first, Htruthy, Hctor by done. done.
Qed.

Lemma startRecording_constructor_failure_witness :
  startRecording {| isTypeSupported := λ _, true;
                    constructorThrows := Some "NotSupportedError" |}
    (readyWorld page_js)
  = setError ("Failed to create video recorder: " +:+ "NotSupportedError"
              +:+ ". Try a different browser or check codec support.")
      (readyWorld page_js).
Proof.
  apply (startRecording_constructor_failure _ _ []
           ["video/webm; codecs=vp8,opus"; "video/webm; codecs=vp9";
            "video/webm; codecs=vp8"; "video/webm"; "video/mp4; codecs=avc1"]
           "video/webm; codecs=vp9,opus");
    first [ reflexivity | constructor ].
Defined.

(** X26: a granted camera request.  The request clears the error; if the
    video element is mounted the camera becomes ready with status granted,
    the Request Camera Access button disappears, and the Start button is
    disabled only by a running recording or missing models.  If the video
    element is not mounted, the grant changes nothing: the camera is not
    marked ready although access was given. *)
Theorem granted_camera (v : Variant) (w : World) :
  let w' := run v [WebcamRequested; WebcamGranted] w in
  error w' = "" ∧
  if videoRef_current w
  then isCameraReady w' = true ∧
       cameraPermissionStatus w' = "granted" ∧
       requestAccessButton_shown w' = false ∧
       startButton_disabled w' = recording w || negb (modelsLoaded w)
  else isCameraReady w' = isCameraReady w ∧
       cameraPermissionStatus w' = cameraPermissionStatus w ∧
       w' = startWebcam w.
Proof.
  cbv zeta. unfold run. simpl. unfold startWebcam_resolved. simpl.
  destruct (videoRef_current w); simpl; [|done].
  unfold startButton_disabled. simpl. by rewrite orb_false_r.
Qed.

(** * Recorders nobody holds *)

Lemma step_orphan (v : Variant) (w : World) (ev : Event) (i : nat) (r : MediaRecorder) :
  timers_fresh w →
  recorders w !! i = Some r → rec_state r = Recording → mediaRecorder w ≠ Some i →
  ∃ r', recorders (step v w ev) !! i = Some r' ∧ rec_state r' = Recording ∧
        mediaRecorder (step v w ev) ≠ Some i.
Proof.
  intros [_ Hfresh] Hr Hs Hm. destruct (recorder_event ev) eqn:Hev.
  2: { destruct (step_recorder_frame v w ev Hev) as (H1 & _ & H3 & _).
       rewrite H1, H3. by exists r. }
  destruct ev; try done; simpl.
  - destruct (recording w || negb (modelsLoaded w) || negb (isCameraReady w));
      [by exists r|].
    unfold startRecording.
    destruct (negb (videoRef_current w) || negb (canvasRef_current w)
              || negb (isCameraReady w)); [by exists r|].
    cbv zeta. destruct (negb (truthy _)); [by exists r|].
    destruct (constructorThrows env); [by exists r|].
    exists r. simpl. split; [by apply lookup_app_l_Some|by split].
  - destruct (negb (recording w)); [by exists r|]. unfold stopRecording.
    destruct (mediaRecorder w) as [j|] eqn:Hj;
      [|exists r; rewrite Hj; by repeat split].
    destruct (recording w); [|exists r; rewrite Hj; by repeat split].
    destruct (recorders w !! j) as [rj|]; [|exists r; rewrite Hj; by repeat split].
    exists r. simpl.
    rewrite list_lookup_insert_ne; [rewrite Hj; by repeat split|congruence].
  - destruct (bool_decide (recorder ∈ timeouts w)) eqn:Hin; [|by exists r].
    apply bool_decide_eq_true in Hin.
    destruct (Hfresh recorder Hin) as (rj & Hrj & Hsj & _).
    assert (Hne : recorder ≠ i) by (intros ->; congruence).
    unfold startRecording_timeout. simpl. rewrite Hrj, Hsj.
    exists r. simpl. rewrite list_lookup_insert_ne by done.
    split; [done|]. split; [done|]. congruence.
  - destruct (recorders w !! recorder) as [rj|] eqn:Hj; [|by exists r].
    destruct (rec_stopping rj); [|by exists r].
    rewrite onstop_recorders.
    destruct (onstop_fields recorder
                (ondataavailable recorder size
                   (set_recorders
                      (<[recorder := {| rec_mimeType := rec_mimeType rj;
                                        rec_state := rec_state rj;
                                        rec_timeslice := rec_timeslice rj;
                                        rec_stopping := false |}]> (recorders w)) w)))
      as (_ & -> & _).
    unfold ondataavailable.
    destruct (size >? 0); simpl;
      (destruct (decide (recorder = i)) as [->|Hne];
       [ eexists; split; [apply list_lookup_insert_eq; by eapply lookup_lt_Some|];
         split; [simpl; congruence|done]
       | exists r; by rewrite list_lookup_insert_ne ]).
Qed.

(** X27: a recorder that is recording while [mediaRecorder] holds another
    one (or none) keeps recording whatever happens afterwards: the Stop
    button never reaches it and nothing else stops a recorder. *)
Theorem orphan_recorder_never_stops (v : Variant) (evs evs' : list Event) (i : nat)
    (r : MediaRecorder) :
  recorders (run v evs initialWorld) !! i = Some r →
  rec_state r = Recording →
  mediaRecorder (run v evs initialWorld) ≠ Some i →
  ∃ r', recorders (run v evs' (run v evs initialWorld)) !! i = Some r' ∧
        rec_state r' = Recording.
Proof.
  pose proof (run_timers_fresh v evs _ initialWorld_timers_fresh) as Hf.
  revert Hf. generalize (run v evs initialWorld) as w. revert r.
  induction evs' as [|ev evs' IH]; intros r w Hf Hr Hs Hm.
  - by exists r.
  - rewrite run_cons.
    destruct (step_orphan v w ev i r Hf Hr Hs Hm) as (r' & Hr' & Hs' & Hm').
    apply (IH r'); [by apply step_timers_fresh|done..].
Qed.

Lemma orphan_recorder_never_stops_witness :
  ∃ r', recorders
          (run page_js [ClickStop; Stopped 1%nat 1000; ClickStart allSupported;
                        TimerFired 2%nat; ClickStop; Stopped 2%nat 500]
             (run page_js [ModelsLoaded; WebcamRequested; WebcamGranted;
                           ClickStart allSupported; ClickStart allSupported;
                           TimerFired 0%nat; TimerFired 1%nat] initialWorld))
          !! 0%nat = Some r' ∧
        rec_state r' = Recording.
Proof.
  apply (orphan_recorder_never_stops page_js
           [ModelsLoaded; WebcamRequested; WebcamGranted;
            ClickStart allSupported; ClickStart allSupported;
            TimerFired 0%nat; TimerFired 1%nat]
           [ClickStop; Stopped 1%nat 1000; ClickStart allSupported;
            TimerFired 2%nat; ClickStop; Stopped 2%nat 500]
           0%nat
           {| rec_mimeType := "video/webm; codecs=vp9,opus"; rec_state := Recording;
              rec_timeslice := None; rec_stopping := false |}).
  - vm_compute. reflexivity.
  - reflexivity.
  - vm_compute. discriminate.
Defined.
